(** * AI_Communication_Scorer: the scoring pipeline of [text_utils.py] and
    [scoring.py], embedded as Rocq functions, with the properties of the
    rubric proved about them.

    Conventions of the embedding.
    - A Python [str] is a list of characters; a character is a code point
      below 256 (type [ascii]), with Python's own classification of those
      code points ([str.isspace], [str.lower], [str.isdigit], [str.isalpha]).
    - A Python [int] is a [Z].
    - A Python [float] is an exact rational kept in lowest terms (every
      threshold of the rubric is an integer or a short decimal).  Division is
      partial: it fails on a zero divisor, as [ZeroDivisionError] does.
    - The sentiment analyser (VADER) and the sentence-embedding model are
      third-party packages: they are parameters of the scoring section. *)

From Stdlib Require Import Ascii String.
From Stdlib Require Import List Bool Arith ZArith NArith QArith Qreduction.
From Stdlib Require Import Lia Lqa.
From Stdlib Require Import Qround DecimalString Permutation Sorted.
Import ListNotations.

(* ================================================================== *)
(** * The Python runtime used by the two modules                       *)
(* ================================================================== *)
Module Py.

Definition str := list ascii.

(** A string literal of the source. *)
Definition lit (s : string) : str := list_ascii_of_string s.

Definition str_eq_dec : forall a b : str, {a = b} + {a <> b} :=
  list_eq_dec ascii_dec.

Definition str_eqb (a b : str) : bool :=
  if str_eq_dec a b then true else false.

(** [not s] for a string or a list. *)
Definition is_empty {A} (l : list A) : bool :=
  match l with [] => true | _ => false end.

(** ** Character classes, on code points 0..255 *)

Definition ord (c : ascii) : N := N_of_ascii c.

Definition between (lo hi n : N) : bool := ((lo <=? n) && (n <=? hi))%N.

(** [str.isspace], also what the regular expression class [\s] matches:
    TAB..CR, FS..US, space, NEL and the no-break space. *)
Definition isspace (c : ascii) : bool :=
  let n := ord c in
  between 9 13 n || between 28 32 n || (n =? 133)%N || (n =? 160)%N.

(** [str.isdigit]: the decimal digits and the superscripts 1, 2, 3. *)
Definition isdigit (c : ascii) : bool :=
  let n := ord c in
  between 48 57 n || (n =? 178)%N || (n =? 179)%N || (n =? 185)%N.

(** [str.isalpha]. *)
Definition isalpha (c : ascii) : bool :=
  let n := ord c in
  between 65 90 n || between 97 122 n
  || (n =? 170)%N || (n =? 181)%N || (n =? 186)%N
  || between 192 214 n || between 216 246 n || between 248 255 n.

(** [str.lower] on one character: A..Z and the accented capitals
    (all of 192..222 but the multiplication sign) move up by 32. *)
Definition lower_char (c : ascii) : ascii :=
  let n := ord c in
  if between 65 90 n || (between 192 222 n && negb (n =? 215)%N)
  then ascii_of_N (n + 32) else c.

Definition lower (s : str) : str := map lower_char s.

(** ** Searching *)

(** [t.startswith(p)]. *)
Fixpoint startswith (p t : str) : bool :=
  match p, t with
  | [], _ => true
  | _ :: _, [] => false
  | a :: p', b :: t' => if ascii_dec a b then startswith p' t' else false
  end.

(** [p in t]. *)
Fixpoint contains (p t : str) : bool :=
  match t with
  | [] => startswith p []
  | _ :: t' => startswith p t || contains p t'
  end.

(** [t.count(p)]: occurrences that do not overlap, leftmost first.  [skip]
    is the number of characters still covered by the last occurrence. *)
Fixpoint count_from (p : str) (skip : nat) (t : str) : nat :=
  match t with
  | [] => 0
  | _ :: t' =>
      match skip with
      | S k => count_from p k t'
      | O => if startswith p t
             then S (count_from p (Nat.pred (length p)) t')
             else count_from p 0 t'
      end
  end.

Definition count (p t : str) : nat :=
  match p with
  | [] => S (length t)
  | _ => count_from p 0 t
  end.

(** [any(f(x) for x in l)]. *)
Definition any {A} (f : A -> bool) (l : list A) : bool := existsb f l.

(** ** Whitespace *)

Fixpoint lstrip (s : str) : str :=
  match s with
  | [] => []
  | c :: s' => if isspace c then lstrip s' else s
  end.

Fixpoint rstrip (s : str) : str :=
  match s with
  | [] => []
  | c :: s' =>
      match rstrip s' with
      | [] => if isspace c then [] else [c]
      | r => c :: r
      end
  end.

Definition strip (s : str) : str := rstrip (lstrip s).

(** [s.replace(old, new)] for one-character [old] and [new]. *)
Definition replace_char (old new : ascii) (s : str) : str :=
  map (fun c => if ascii_dec c old then new else c) s.

(** [re.sub(r"\s+", " ", s)]: every maximal run of whitespace becomes one
    space.  [in_run] tells that the previous character was whitespace. *)
Fixpoint re_sub_ws (in_run : bool) (s : str) : str :=
  match s with
  | [] => []
  | c :: s' =>
      if isspace c
      then (if in_run then re_sub_ws true s' else " "%char :: re_sub_ws true s')
      else c :: re_sub_ws false s'
  end.

(** Put a character in front of the first piece of a split. *)
Definition cons_head (c : ascii) (l : list str) : list str :=
  match l with
  | [] => [[c]]
  | h :: t => (c :: h) :: t
  end.

(** [s.split()]: the maximal runs of non-whitespace characters. *)
Fixpoint split (s : str) : list str :=
  match s with
  | [] => []
  | c :: s' =>
      if isspace c then split s'
      else match s' with
           | [] => [[c]]
           | c' :: _ => if isspace c' then [c] :: split s'
                        else cons_head c (split s')
           end
  end.

Definition is_term (c : ascii) : bool :=
  match c with
  | "."%char | "!"%char | "?"%char => true
  | _ => false
  end.

(** [re.split(r"[.!?]+", s)]: the pieces between maximal runs of sentence
    terminators; the first and the last piece may be empty. *)
Fixpoint re_split_term (s : str) : list str :=
  match s with
  | [] => [[]]
  | c :: s' =>
      if is_term c
      then match s' with
           | [] => [[]; []]
           | c' :: _ => if is_term c' then re_split_term s'
                        else [] :: re_split_term s'
           end
      else cons_head c (re_split_term s')
  end.

(** ** Dictionaries, as association lists *)

Definition dict (K V : Type) := list (K * V).

Fixpoint dict_get {K V} (eqb : K -> K -> bool) (d : dict K V) (k : K)
  (default : V) : V :=
  match d with
  | [] => default
  | (k', v) :: d' => if eqb k' k then v else dict_get eqb d' k default
  end.

(** [d[k] = v]: the entry is replaced where it is, or added at the end. *)
Fixpoint dict_set {K V} (eqb : K -> K -> bool) (d : dict K V) (k : K) (v : V)
  : dict K V :=
  match d with
  | [] => [(k, v)]
  | (k', v') :: d' =>
      if eqb k' k then (k', v) :: d' else (k', v') :: dict_set eqb d' k v
  end.

(** ** Floats *)

Definition float := Q.

Definition of_int (n : Z) : float := inject_Z n.
Definition fmul (a b : float) : float := Qred (a * b).
Definition fsub (a b : float) : float := Qred (a - b).

(** [a / b], which raises on [b == 0]. *)
Definition fdiv (a b : float) : option float :=
  if Qeq_bool b 0 then None else Some (Qred (a / b)).

Definition fle (a b : float) : bool := Qle_bool a b.
Definition flt (a b : float) : bool := negb (Qle_bool b a).

(** The builtin [min(a, b)] and [max(a, b)]: the first argument wins ties. *)
Definition fmin (a b : float) : float := if flt b a then b else a.
Definition fmax (a b : float) : float := if flt a b then b else a.

Definition zmax (a b : Z) : Z := if (a <? b)%Z then b else a.

(** ** Exceptions: [None] is a raised exception. *)

Definition bind {A B} (m : option A) (k : A -> option B) : option B :=
  match m with
  | Some a => k a
  | None => None
  end.

End Py.

Notation "x <- m ;; k" := (Py.bind m (fun x => k))
  (at level 61, m at next level, right associativity).
Notation "' pat <- m ;; k" := (Py.bind m (fun x => match x with pat => k end))
  (at level 61, pat pattern, m at next level, right associativity).

(* ================================================================== *)
(** * text_utils.py                                                    *)
(* ================================================================== *)
Module TextUtils.
Import Py.

(** Lowercase and strip extra whitespace. *)
Definition preprocess_text (text : str) : str :=
  if is_empty text then []
  else
    let text := replace_char "010"%char " "%char
                  (replace_char "013"%char " "%char text) in
    let text := re_sub_ws false text in
    lower (strip text).

Record Stats := mkStats {
  tokens : list str;
  total_words : Z;
  distinct_words : Z;
  sentences : list str;
  sentence_count : Z
}.

(** [len(set(tokens))]. *)
Definition len_set (l : list str) : Z :=
  Z.of_nat (length (nodup str_eq_dec l)).

(** Compute basic stats: tokens, counts, sentences. *)
Definition get_basic_stats (text : str) : Stats :=
  let clean := strip text in
  if is_empty clean then mkStats [] 0 0 [] 0
  else
    let tokens := split clean in
    let total_words := Z.of_nat (length tokens) in
    let distinct_words := len_set tokens in
    let raw_sentences := re_split_term clean in
    let sentences :=
      map strip (filter (fun s => negb (is_empty (strip s))) raw_sentences) in
    let sentence_count := Z.of_nat (length sentences) in
    mkStats tokens total_words distinct_words sentences sentence_count.

Definition compute_ttr (total_words distinct_words : Z) : option float :=
  if (total_words =? 0)%Z then Some 0%Q
  else fdiv (of_int distinct_words) (of_int total_words).

(** The loop [for t in tokens: token_counts[t] = token_counts.get(t, 0) + 1]. *)
Definition count_tokens (tokens : list str) : dict str Z :=
  fold_left
    (fun token_counts t =>
       dict_set str_eqb token_counts t (dict_get str_eqb token_counts t 0 + 1)%Z)
    tokens [].

(** Count filler words (single and multi-word). *)
Definition count_filler_words (text : str) (fillers : list str) : Z :=
  if is_empty text then 0%Z
  else
    let text_lower := lower text in
    let tokens := split text_lower in
    let token_counts := count_tokens tokens in
    fold_left
      (fun count f =>
         let f := strip (lower f) in
         if contains (lit " ") f
         then (count + Z.of_nat (Py.count f text_lower))%Z
         else (count + dict_get str_eqb token_counts f 0)%Z)
      fillers 0%Z.

Definition enthusiastic_phrases : list str :=
  map lit [ "excited to introduce myself";
            "thrilled to introduce myself";
            "thrilled to be here";
            "excited to be here";
            "i am excited to introduce";
            "i'm excited to introduce" ]%string.

Definition formal_greetings : list str :=
  map lit [ "good morning"; "good afternoon"; "good evening";
            "hello everyone"; "hello everybody" ]%string.

Definition simple_greetings : list str :=
  map lit [ "hello"; "hi"; "hey" ]%string.

(** The loop [for p in phrases: if p in first: return ...]. *)
Definition any_in (phrases : list str) (s : str) : bool :=
  any (fun p => contains p s) phrases.

(** Returns 0, 2, 4, or 5 based on first sentence. *)
Definition detect_salutation_level (text : str) : option Z :=
  if is_empty text then Some 0%Z
  else
    let stats := get_basic_stats text in
    let sentences := sentences stats in
    if is_empty sentences then Some 0%Z
    else
      first <- nth_error sentences 0 ;;
      let first := lower first in
      if any_in enthusiastic_phrases first then Some 5%Z
      else if any_in formal_greetings first then Some 4%Z
      else if any_in simple_greetings first then Some 2%Z
      else Some 0%Z.

Definition name_phrases := map lit ["my name is"; "myself"; "i am "]%string.
Definition age_phrase := lit "years old".
Definition school_phrases :=
  map lit ["class "; "standard"; "grade "; "school"]%string.
Definition family_phrases :=
  map lit ["family"; "mother"; "father"; "parents"; "brother"; "sister"]%string.
Definition hobby_phrases :=
  map lit ["my hobby is"; "my hobbies are"; "i like to"; "i love to";
           "i enjoy"; "in my free time"]%string.
Definition about_family_phrases :=
  map lit ["my family is"; "we are a family of"; "there are";
           "members in my family"]%string.
Definition location_phrases :=
  map lit ["i am from"; "i'm from"; "i live in"; "my hometown"]%string.
Definition ambition_phrases :=
  map lit ["i want to become"; "i want to be"; "my dream is"; "my goal is";
           "my ambition is"]%string.
Definition fun_fact_phrases :=
  map lit ["fun fact"; "something unique about me"; "one thing about me";
           "an interesting thing about me"]%string.
Definition strength_phrases :=
  map lit ["i am good at"; "i'm good at"; "my strength is";
           "my strengths are"; "i have won"; "i won"; "i achieved";
           "i have achieved"]%string.

(** Detect presence of rubric 'concepts' using simple patterns. *)
Definition detect_keywords (text : str) : dict string bool :=
  let t := lower text in
  let has_name := any_in name_phrases t in
  let has_age := contains age_phrase t in
  let has_school_class := any_in school_phrases t in
  let has_family := any_in family_phrases t in
  let has_hobbies := any_in hobby_phrases t in
  let has_about_family := any_in about_family_phrases t in
  let has_location := any_in location_phrases t in
  let has_ambition := any_in ambition_phrases t in
  let has_fun_fact := any_in fun_fact_phrases t in
  let has_strengths_or_achievements := any_in strength_phrases t in
  [ ("has_name", has_name);
    ("has_age", has_age);
    ("has_school_class", has_school_class);
    ("has_family", has_family);
    ("has_hobbies", has_hobbies);
    ("has_about_family", has_about_family);
    ("has_location", has_location);
    ("has_ambition", has_ambition);
    ("has_fun_fact", has_fun_fact);
    ("has_strengths_or_achievements", has_strengths_or_achievements) ]%string.

Definition _sentence_has_basic (s : str) : bool :=
  let s := lower s in
  if any_in name_phrases s then true
  else if contains age_phrase s then true
  else if any_in school_phrases s then true
  else if any_in (map lit ["i am from"; "i live in"; "i'm from";
                           "my hometown"]%string) s then true
  else false.

Definition _sentence_has_additional (s : str) : bool :=
  let s := lower s in
  if any_in family_phrases s then true
  else if any_in hobby_phrases s then true
  else if any_in ambition_phrases s then true
  else if any_in fun_fact_phrases s then true
  else if any_in strength_phrases s then true
  else false.

Definition _sentence_has_salutation (s : str) : bool :=
  let s := lower s in
  if any_in (map lit ["good morning"; "good afternoon";
                      "good evening"]%string) s then true
  else if any_in (map lit ["hello"; "hi"; "hey"]%string) s then true
  else if any_in (map lit ["excited to introduce myself";
                           "thrilled to introduce myself";
                           "excited to be here";
                           "thrilled to be here"]%string) s then true
  else false.

Definition _sentence_has_closing (s : str) : bool :=
  let s := lower s in
  if contains (lit "thank you") s || contains (lit "thanks for listening") s
     || contains (lit "that's all") s
  then true else false.

(** Tag each sentence as SALUTATION / BASIC / ADDITIONAL / CLOSING / OTHER. *)
Definition detect_structure_tags (sentences : list str) : list string :=
  map (fun s =>
         if _sentence_has_salutation s then "SALUTATION"
         else if _sentence_has_closing s then "CLOSING"
         else if _sentence_has_basic s then "BASIC"
         else if _sentence_has_additional s then "ADDITIONAL"
         else "OTHER")%string
      sentences.

End TextUtils.

(* ================================================================== *)
(** * scoring.py                                                       *)
(* ================================================================== *)
Module Scoring.
Import Py TextUtils.

(** Short "ideal" descriptions for each high-level rubric dimension. *)
Definition CRITERION_DESCRIPTIONS : dict string str :=
  [ ("content"%string,
     lit "A well-structured self introduction with a clear salutation, name, age, class or school, family background, hobbies or interests, and a closing thank you.");
    ("language"%string,
     lit "Clear, grammatically correct English with appropriate sentence structure and a reasonably varied vocabulary for a school student.");
    ("clarity"%string,
     lit "Fluent and easy to understand speech with minimal filler words, concise sentences, and ideas expressed in a straightforward way.");
    ("engagement"%string,
     lit "A positive, enthusiastic, and friendly tone that feels genuine and engaging, making the listener interested in the speaker.") ].

(** [d[k]], which raises [KeyError] on a missing key. *)
Fixpoint dict_lookup {V} (d : dict string V) (k : string) : option V :=
  match d with
  | [] => None
  | (k', v) :: d' => if String.eqb k' k then Some v else dict_lookup d' k
  end.

(** [k in d]. *)
Definition dict_mem {V} (d : dict string V) (k : string) : bool :=
  existsb (fun kv => String.eqb (fst kv) k) d.

(** ** Rule-based scoring functions that need no external tool *)

Definition must_haves : list (string * string) :=
  [ ("Name", "has_name");
    ("Age", "has_age");
    ("School/Class", "has_school_class");
    ("Family", "has_family");
    ("Hobbies/Interests", "has_hobbies") ]%string.

Definition good_to_have : list (string * string) :=
  [ ("About family (details)", "has_about_family");
    ("Location/Origin", "has_location");
    ("Ambition/Goal/Dream", "has_ambition");
    ("Fun fact / Unique thing", "has_fun_fact");
    ("Strengths/Achievements", "has_strengths_or_achievements") ]%string.

(** One of the two loops of [score_keywords], worth [pts] a concept; the
    state is [(score, present, missing)]. *)
Definition keyword_loop (kw : dict string bool) (pts : Z)
  (concepts : list (string * string)) (st : Z * list string * list string)
  : Z * list string * list string :=
  fold_left
    (fun st lk =>
       let '(score, present, missing) := st in
       let '(label, key) := lk in
       if dict_get String.eqb kw key false
       then ((score + pts)%Z, present ++ [label], missing)
       else (score, present, missing ++ [label]))
    concepts st.

(** Keyword coverage according to rubric. *)
Definition score_keywords (text : str) : Z * list string * list string :=
  let kw := detect_keywords text in
  let st := (0%Z, [], []) in
  let st := keyword_loop kw 4 must_haves st in
  let st := keyword_loop kw 2 good_to_have st in
  st.

(** [tag in tags]. *)
Definition tag_in (tag : string) (tags : list string) : bool :=
  existsb (String.eqb tag) tags.

(** Flow / Order (0 or 5). *)
Definition score_flow (sentences : list str) (tags : list string) : Z :=
  if is_empty sentences || is_empty tags then 0%Z
  else
    let has_sal := tag_in "SALUTATION" tags in
    let has_basic := tag_in "BASIC" tags in
    let has_closing := tag_in "CLOSING" tags in
    if has_sal && has_basic && has_closing then 5%Z else 0%Z.

(** Speech rate / WPM according to rubric bands. *)
Definition score_speech_rate (total_words : Z) (duration_sec : float)
  : option (Z * float) :=
  if (total_words =? 0)%Z || fle duration_sec 0 then Some (0%Z, 0%Q)
  else
    wpm <- fdiv (fmul (of_int total_words) 60) duration_sec ;;
    let score :=
      if flt wpm 80 || flt 161 wpm then 2%Z
      else if (fle 81 wpm && fle wpm 110) || (fle 141 wpm && fle wpm 160)
      then 6%Z
      else if fle 111 wpm && fle wpm 140 then 10%Z
      else 2%Z in
    Some (score, wpm).

(** A token that mixes a digit and a letter. *)
Definition weird_token (tok : str) : bool :=
  any isdigit tok && any isalpha tok.

(** Grammar scoring - local heuristic version. *)
Definition score_grammar (text : str) (total_words : Z) : option (Z * float) :=
  if (total_words =? 0)%Z then Some (0%Z, 0%Q)
  else
    let lower_text := lower text in
    let lower_i_errors := Z.of_nat (count (lit " i ") lower_text) in
    let double_space_errors := Z.of_nat (count (lit "  ") text) in
    let weird_tokens := filter weird_token (split text) in
    let weird_punc_errors := Z.of_nat (length weird_tokens) in
    let errors_est :=
      (lower_i_errors + double_space_errors + weird_punc_errors)%Z in
    density <- fdiv (of_int errors_est) (of_int (zmax total_words 1)) ;;
    let errors_per_100 := fmin (fmul density 100) 100 in
    ratio <- fdiv errors_per_100 20 ;;
    let gram_frac := fsub 1 (fmin ratio 1) in
    let score :=
      if flt 0.8 gram_frac then 10%Z
      else if fle 0.6 gram_frac && fle gram_frac 0.8 then 8%Z
      else if fle 0.4 gram_frac && flt gram_frac 0.6 then 6%Z
      else if fle 0.2 gram_frac && flt gram_frac 0.4 then 4%Z
      else 2%Z in
    Some (score, errors_per_100).

(** Vocabulary richness (TTR) bands. *)
Definition score_vocabulary (total_words distinct_words : Z)
  : option (Z * float) :=
  if (total_words =? 0)%Z then Some (0%Z, 0%Q)
  else
    ttr <- compute_ttr total_words distinct_words ;;
    let score :=
      if fle 0.9 ttr && fle ttr 1 then 10%Z
      else if fle 0.7 ttr && flt ttr 0.9 then 8%Z
      else if fle 0.5 ttr && flt ttr 0.7 then 6%Z
      else if fle 0.3 ttr && flt ttr 0.5 then 4%Z
      else 2%Z in
    Some (score, ttr).

Definition fillers : list str :=
  map lit [ "um"; "uh"; "like"; "you know"; "so"; "actually"; "basically";
            "right"; "i mean"; "well"; "kinda"; "sort of"; "okay"; "hmm";
            "ah" ]%string.

(** The bands of the filler rate (a percentage). *)
Definition clarity_band (filler_rate : float) : Z :=
  if fle 0 filler_rate && fle filler_rate 3 then 15%Z
  else if fle 4 filler_rate && fle filler_rate 6 then 12%Z
  else if fle 7 filler_rate && fle filler_rate 9 then 9%Z
  else if fle 10 filler_rate && fle filler_rate 12 then 6%Z
  else 3%Z.

(** Clarity via filler word rate. *)
Definition score_clarity (text : str) (total_words : Z)
  : option (Z * float * Z) :=
  if (total_words =? 0)%Z then Some (0%Z, 0%Q, 0%Z)
  else
    let filler_count := count_filler_words text fillers in
    ratio <- fdiv (of_int filler_count) (of_int total_words) ;;
    let filler_rate := fmul ratio 100 in
    let score := clarity_band filler_rate in
    Some (score, filler_rate, filler_count).

(** [max(0.0, min(1.0, sim))]. *)
Definition clamp01 (sim : float) : float := fmax 0 (fmin 1 sim).

Record Result := mkResult {
  total_score : Z;
  stats : Stats;
  wpm : float;
  salutation_score : Z;
  keyword_score : Z;
  present_keywords : list string;
  missing_keywords : list string;
  flow_score : Z;
  speech_score : Z;
  grammar_score : Z;
  errors_per_100 : float;
  vocab_score : Z;
  ttr : float;
  clarity_score : Z;
  filler_rate : float;
  filler_count : Z;
  engagement_score : Z;
  pos_prob : float;
  tags : list string;
  content_semantic : float;
  language_semantic : float;
  clarity_semantic : float;
  engagement_semantic : float
}.

Section ExternalTools.

(** [analyzer.polarity_scores]: the sentiment analyser, a dictionary of
    scores for a text. *)
Variable polarity_scores : str -> dict string float.

(** The embedding model: [sem_model.encode] and [util.pytorch_cos_sim]
    (followed by [.item()]). *)
Variable embedding : Type.
Variable encode : str -> embedding.
Variable pytorch_cos_sim : embedding -> embedding -> float.

(** Pre-computed embeddings for the criterion descriptions. *)
Definition CRITERION_EMBEDDINGS : dict string embedding :=
  map (fun kd => (fst kd, encode (snd kd))) CRITERION_DESCRIPTIONS.

(** Salutation score, delegated to [detect_salutation_level]. *)
Definition score_salutation (text : str) : option Z :=
  detect_salutation_level text.

(** Engagement via sentiment. *)
Definition score_engagement (text : str) : Z * float :=
  let scores := polarity_scores text in
  let pos := dict_get String.eqb scores "pos"%string 0%Q in
  let score :=
    if fle 0.7 pos then 15%Z
    else if fle 0.5 pos && flt pos 0.7 then 12%Z
    else if fle 0.3 pos && flt pos 0.5 then 9%Z
    else if fle 0.1 pos && flt pos 0.3 then 6%Z
    else 3%Z in
  (score, pos).

(** Cosine similarity between the transcript and the ideal description of a
    criterion, in [0, 1]. *)
Definition compute_semantic_similarity (text : str) (criterion_key : string)
  : option float :=
  if negb (dict_mem CRITERION_EMBEDDINGS criterion_key) then Some 0%Q
  else
    let text_emb := encode text in
    crit_emb <- dict_lookup CRITERION_EMBEDDINGS criterion_key ;;
    let sim := pytorch_cos_sim text_emb crit_emb in
    let sim := clamp01 sim in
    Some sim.

(** Main function: scores transcript according to the rubric. *)
Definition score_transcript (text : str) (duration_sec : float)
  : option Result :=
  let clean_text := preprocess_text text in
  let stats := get_basic_stats clean_text in
  let tokens := tokens stats in
  let total_words := total_words stats in
  let distinct_words := distinct_words stats in
  let sentences := sentences stats in
  let sentence_count := sentence_count stats in
  salutation_score <- score_salutation clean_text ;;
  let '(keyword_score, present_kw, missing_kw) := score_keywords clean_text in
  let tags := detect_structure_tags sentences in
  let flow_score := score_flow sentences tags in
  '(speech_score, wpm) <- score_speech_rate total_words duration_sec ;;
  '(grammar_score, errors_per_100) <- score_grammar text total_words ;;
  '(vocab_score, ttr) <- score_vocabulary total_words distinct_words ;;
  '(clarity_score, filler_rate, filler_count) <-
     score_clarity clean_text total_words ;;
  let '(engagement_score, pos_prob) := score_engagement text in
  let total_score :=
    (salutation_score + keyword_score + flow_score + speech_score
     + grammar_score + vocab_score + clarity_score + engagement_score)%Z in
  content_sem <- compute_semantic_similarity clean_text "content" ;;
  language_sem <- compute_semantic_similarity clean_text "language" ;;
  clarity_sem <- compute_semantic_similarity clean_text "clarity" ;;
  engagement_sem <- compute_semantic_similarity clean_text "engagement" ;;
  Some (mkResult total_score
          (mkStats tokens total_words distinct_words sentences sentence_count)
          wpm salutation_score keyword_score present_kw missing_kw flow_score
          speech_score grammar_score errors_per_100 vocab_score ttr
          clarity_score filler_rate filler_count engagement_score pos_prob
          tags content_sem language_sem clarity_sem engagement_sem).

End ExternalTools.

End Scoring.

(* ================================================================== *)
(** * app.py                                                           *)
(* ================================================================== *)
Module App.
Import Py TextUtils Scoring.

Definition label_overall (score : Z) : string :=
  if (score >=? 90)%Z then "Outstanding"
  else if (score >=? 75)%Z then "Very good"
  else if (score >=? 60)%Z then "Good"
  else if (score >=? 40)%Z then "Needs improvement"
  else "Weak".

(** ** The feedback summary computed by [main] *)











End App.

(* ================================================================== *)
(** * Vocabulary of the properties                                     *)
(* ================================================================== *)
Module Spec.
Import Py TextUtils.

(** [p] occurs in [t]. *)
Definition Substring (p t : str) : Prop := exists a b, t = a ++ p ++ b.

(** The whitespace of [s] is made of single spaces ([prev] tells that a
    space comes just before [s]). *)
Fixpoint single_spaced (prev : bool) (s : str) : bool :=
  match s with
  | [] => true
  | c :: s' =>
      if isspace c
      then (if ascii_dec c " "%char then negb prev && single_spaced true s'
            else false)
      else single_spaced false s'
  end.

(** Some phrase of the list occurs in [s]. *)
Definition Mentions (phrases : list str) (s : str) : Prop :=
  Exists (fun p => Substring p s) phrases.

(** What one filler adds to the count: the occurrences of the phrase in the
    lowercased text when it has a space in it, else the number of tokens of
    the lowercased text equal to it. *)
Definition filler_occurrences (text f : str) : Z :=
  let f := strip (lower f) in
  if contains (lit " ") f
  then Z.of_nat (count f (lower text))
  else Z.of_nat (count_occ str_eq_dec (split (lower text)) f).

Definition zsum (l : list Z) : Z := fold_right Z.add 0%Z l.

(** The number of the concepts of [keys] that [kw] reports present. *)
Definition detected (kw : dict string bool) (keys : list string) : Z :=
  Z.of_nat (length (filter (fun k => dict_get String.eqb kw k false) keys)).

End Spec.

Module SpecMore.
Import Py TextUtils Scoring App.

(** The ten concepts of the rubric, must-haves first. *)
Definition concepts : list (string * string) := must_haves ++ good_to_have.

(** The concept (a label and its key) is reported present by [kw]. *)
Definition flagged (kw : dict string bool) (lk : string * string) : bool :=
  dict_get String.eqb kw (snd lk) false.

(** The estimated number of errors of the grammar heuristic: standalone
    lowercase "i", double spaces, tokens that mix digits and letters. *)
Definition errors_est (text : str) : Z :=
  (Z.of_nat (count (lit " i ") (lower text))
   + Z.of_nat (count (lit "  ") text)
   + Z.of_nat (length (filter weird_token (split text))))%Z.

(** The five performance bands, from the lowest. *)
Definition band_rank (label : string) : nat :=
  if String.eqb label "Outstanding" then 4
  else if String.eqb label "Very good" then 3
  else if String.eqb label "Good" then 2
  else if String.eqb label "Needs improvement" then 1
  else 0.

(** The structure tags. *)
Definition structure_tags : list string :=
  ["SALUTATION"; "CLOSING"; "BASIC"; "ADDITIONAL"; "OTHER"]%string.


End SpecMore.

(* ================================================================== *)
(** * Facts about the runtime                                          *)
(* ================================================================== *)
Module PyFacts.
Import Py Spec.


(** ** Characters *)

Ltac all_chars c :=
  destruct c as [[] [] [] [] [] [] [] []]; vm_compute; try reflexivity;
  try discriminate; auto.

Lemma isspace_lower_char c : isspace (lower_char c) = isspace c.
Proof. all_chars c. Qed.

Lemma lower_char_idem c : lower_char (lower_char c) = lower_char c.
Proof. all_chars c. Qed.

Lemma lower_char_space c :
  isspace c = true -> lower_char c = c.
Proof. all_chars c. Qed.


Lemma lower_app a b : lower (a ++ b) = lower a ++ lower b.
Proof. apply map_app. Qed.

Lemma lower_idem s : lower (lower s) = lower s.
Proof.
  unfold lower. rewrite map_map. apply map_ext. apply lower_char_idem.
Qed.

(** ** Substrings *)

Lemma startswith_spec p t : startswith p t = true <-> exists b, t = p ++ b.
Proof.
  revert t. induction p as [|a p IH]; intros t; simpl.
  - split; eauto.
  - destruct t as [|b t].
    + split; [discriminate | intros [x Hx]; discriminate].
    + destruct (ascii_dec a b) as [->|Hne].
      * rewrite IH. split; intros [x Hx]; exists x.
        -- now rewrite Hx.
        -- now injection Hx.
      * split; [discriminate | intros [x Hx]; injection Hx; congruence].
Qed.

Lemma contains_spec p t : contains p t = true <-> Substring p t.
Proof.
  unfold Substring. induction t as [|c t IH]; simpl.
  - rewrite startswith_spec. split.
    + intros [b Hb]. exists [], b. exact Hb.
    + intros [a [b Hab]]. destruct a; [|discriminate]. eauto.
  - rewrite orb_true_iff, startswith_spec, IH. split.
    + intros [[b Hb] | [a [b Hab]]].
      * exists [], b. exact Hb.
      * exists (c :: a), b. simpl. now rewrite Hab.
    + intros [a [b Hab]]. destruct a as [|x a]; simpl in Hab.
      * left. eauto.
      * right. injection Hab as _ Hab. eauto.
Qed.

Lemma Substring_trans p q t : Substring p q -> Substring q t -> Substring p t.
Proof.
  intros [a [b ->]] [a' [b' ->]]. exists (a' ++ a), (b ++ b').
  now rewrite <- !app_assoc.
Qed.

Lemma Substring_lower p t : Substring p t -> Substring (lower p) (lower t).
Proof.
  intros [a [b ->]]. exists (lower a), (lower b). now rewrite !lower_app.
Qed.

Lemma Substring_app_l p t r : Substring p t -> Substring p (t ++ r).
Proof.
  intros [a [b ->]]. exists a, (b ++ r). now rewrite <- !app_assoc.
Qed.

Lemma contains_trans p q t :
  contains p q = true -> contains q t = true -> contains p t = true.
Proof. rewrite !contains_spec. apply Substring_trans. Qed.

Lemma contains_lower p t :
  contains p t = true -> contains (lower p) (lower t) = true.
Proof. rewrite !contains_spec. apply Substring_lower. Qed.

Lemma contains_app_l p t r :
  contains p t = true -> contains p (t ++ r) = true.
Proof. rewrite !contains_spec. apply Substring_app_l. Qed.

(** A text of whitespace only contains no phrase that has a visible
    character. *)
Lemma startswith_forallb (f : ascii -> bool) p t :
  startswith p t = true -> forallb f t = true -> forallb f p = true.
Proof.
  rewrite startswith_spec. intros [b ->]. rewrite forallb_app.
  now intros [H _]%andb_true_iff.
Qed.

Lemma contains_forallb (f : ascii -> bool) p t :
  contains p t = true -> forallb f t = true -> forallb f p = true.
Proof.
  rewrite contains_spec. intros [a [b ->]]. rewrite !forallb_app.
  intros [_ [H _]%andb_true_iff]%andb_true_iff. exact H.
Qed.

Lemma contains_blank p t :
  forallb isspace t = true -> forallb isspace p = false ->
  contains p t = false.
Proof.
  intros Ht Hp. destruct (contains p t) eqn:E; [|reflexivity].
  rewrite (contains_forallb isspace p t E Ht) in Hp. discriminate.
Qed.

Lemma forallb_isspace_lower t :
  forallb isspace (lower t) = forallb isspace t.
Proof.
  induction t as [|c t IH]; simpl; [reflexivity|].
  now rewrite isspace_lower_char, IH.
Qed.

(** ** Stripping *)

Lemma lstrip_blank s : forallb isspace s = true -> lstrip s = [].
Proof.
  induction s as [|c s IH]; simpl; [reflexivity|].
  intros [Hc Hs]%andb_true_iff. rewrite Hc. auto.
Qed.

Lemma rstrip_blank s : forallb isspace s = true -> rstrip s = [].
Proof.
  induction s as [|c s IH]; simpl; [reflexivity|].
  intros [Hc Hs]%andb_true_iff. rewrite (IH Hs), Hc. reflexivity.
Qed.

Lemma strip_blank s : forallb isspace s = true -> strip s = [].
Proof. intros H. unfold strip. now rewrite (lstrip_blank _ H). Qed.

Lemma rstrip_cons_visible c s :
  isspace c = false -> rstrip (c :: s) = c :: rstrip s.
Proof. intros H. simpl. rewrite H. now destruct (rstrip s). Qed.

Lemma lstrip_cons_visible c s : isspace c = false -> lstrip (c :: s) = c :: s.
Proof. intros H. simpl. now rewrite H. Qed.

Lemma rstrip_nil_blank s : rstrip s = [] -> forallb isspace s = true.
Proof.
  induction s as [|c s IH]; simpl; [reflexivity|].
  destruct (rstrip s) eqn:E; [|discriminate].
  destruct (isspace c); [|discriminate]. intros _. now rewrite IH.
Qed.

Lemma rstrip_idem s : rstrip (rstrip s) = rstrip s.
Proof.
  induction s as [|c s IH]; simpl; [reflexivity|].
  destruct (rstrip s) as [|x r] eqn:E.
  - destruct (isspace c) eqn:Hc; simpl; [reflexivity|]. now rewrite Hc.
  - change (rstrip (c :: x :: r)) with
      (match rstrip (x :: r) with
       | [] => if isspace c then [] else [c]
       | r0 => c :: r0
       end).
    now rewrite IH.
Qed.




Lemma lstrip_rstrip_lstrip s : lstrip (rstrip (lstrip s)) = rstrip (lstrip s).
Proof.
  induction s as [|c s IH]; [reflexivity|].
  simpl lstrip at 2 3. destruct (isspace c) eqn:Hc; [exact IH|].
  rewrite rstrip_cons_visible by exact Hc.
  now apply lstrip_cons_visible.
Qed.

Lemma strip_idem s : strip (strip s) = strip s.
Proof.
  unfold strip. now rewrite lstrip_rstrip_lstrip, rstrip_idem.
Qed.

Lemma lstrip_lower s : lstrip (lower s) = lower (lstrip s).
Proof.
  induction s as [|c s IH]; simpl; [reflexivity|].
  rewrite isspace_lower_char. now destruct (isspace c).
Qed.

Lemma rstrip_lower s : rstrip (lower s) = lower (rstrip s).
Proof.
  induction s as [|c s IH]; simpl; [reflexivity|].
  rewrite IH, isspace_lower_char.
  destruct (rstrip s); simpl; [now destruct (isspace c)|reflexivity].
Qed.

Lemma strip_lower s : strip (lower s) = lower (strip s).
Proof. unfold strip. now rewrite lstrip_lower, rstrip_lower. Qed.

(** ** Splitting *)

Lemma split_blank s : forallb isspace s = true -> split s = [].
Proof.
  induction s as [|c s IH]; simpl; [reflexivity|].
  intros [Hc Hs]%andb_true_iff. rewrite Hc. auto.
Qed.

Lemma split_nil_blank s : split s = [] -> forallb isspace s = true.
Proof.
  induction s as [|c s IH]; simpl; [reflexivity|].
  destruct (isspace c) eqn:Hc; [exact IH|].
  destruct s as [|d s]; [discriminate|].
  destruct (isspace d); [discriminate|].
  destruct (split (d :: s)); discriminate.
Qed.

Lemma re_split_term_cons s : exists h X, re_split_term s = h :: X.
Proof.
  induction s as [|c s [h [X IH]]]; simpl; [eauto|].
  destruct (is_term c).
  - destruct s as [|d s]; [eauto|]. destruct (is_term d); eauto.
  - rewrite IH. simpl. eauto.
Qed.

Lemma re_split_term_starts_term c s :
  is_term c = true -> exists X, re_split_term (c :: s) = [] :: X.
Proof.
  revert c. induction s as [|d s IH]; intros c Hc.
  - simpl. rewrite Hc. eauto.
  - change (re_split_term (c :: d :: s)) with
      (if is_term c
       then (if is_term d then re_split_term (d :: s)
             else [] :: re_split_term (d :: s))
       else cons_head c (re_split_term (d :: s))).
    rewrite Hc. destruct (is_term d) eqn:Hd; [|eauto]. apply (IH d Hd).
Qed.


(** ** Collapsing whitespace *)

Lemma re_sub_ws_single_spaced b s : single_spaced b (re_sub_ws b s) = true.
Proof.
  revert b. induction s as [|c s IH]; intros b; simpl; [reflexivity|].
  destruct (isspace c) eqn:Hc.
  - destruct b; [apply IH|]. simpl. apply IH.
  - simpl. rewrite Hc. apply IH.
Qed.

Lemma single_spaced_fixed b s :
  single_spaced b s = true -> re_sub_ws b s = s.
Proof.
  revert b. induction s as [|c s IH]; intros b; simpl; [reflexivity|].
  destruct (isspace c) eqn:Hc.
  - destruct (ascii_dec c " "%char) as [->|]; [|discriminate].
    destruct b; simpl; [discriminate|]. intros H. now rewrite (IH true H).
  - intros H. now rewrite (IH false H).
Qed.

Lemma single_spaced_weaken b s :
  single_spaced b s = true -> single_spaced false s = true.
Proof.
  destruct s as [|c s]; simpl; [reflexivity|].
  destruct (isspace c); [|auto].
  destruct (ascii_dec c " "%char); [|discriminate].
  now intros [_ H]%andb_true_iff.
Qed.

Lemma single_spaced_lstrip s :
  single_spaced false s = true -> single_spaced false (lstrip s) = true.
Proof.
  induction s as [|c s IH]; simpl; [reflexivity|].
  destruct (isspace c) eqn:Hc.
  - destruct (ascii_dec c " "%char); [|discriminate]. simpl.
    intros H. apply IH. apply (single_spaced_weaken _ _ H).
  - simpl. now rewrite Hc.
Qed.

Lemma single_spaced_rstrip b s :
  single_spaced b s = true -> single_spaced b (rstrip s) = true.
Proof.
  revert b. induction s as [|c s IH]; intros b; simpl; [reflexivity|].
  destruct (rstrip s) as [|x r] eqn:E.
  - destruct (isspace c) eqn:Hc; simpl; [reflexivity|]. now rewrite Hc.
  - intros H. simpl. destruct (isspace c) eqn:Hc.
    + destruct (ascii_dec c " "%char); [|discriminate].
      apply andb_true_iff in H as [H1 H2]. rewrite H1. simpl.
      apply (IH true H2).
    + apply (IH false H).
Qed.

Lemma single_spaced_strip s :
  single_spaced false s = true -> single_spaced false (strip s) = true.
Proof.
  intros H. unfold strip. now apply single_spaced_rstrip, single_spaced_lstrip.
Qed.

Lemma single_spaced_lower b s :
  single_spaced b (lower s) = single_spaced b s.
Proof.
  revert b. induction s as [|c s IH]; intros b; simpl; [reflexivity|].
  rewrite isspace_lower_char. destruct (isspace c) eqn:Hc.
  - rewrite (lower_char_space _ Hc), IH. reflexivity.
  - apply IH.
Qed.

(** Single-spaced text has no carriage return and no line feed. *)
Lemma single_spaced_replace b s (old : ascii) :
  isspace old = true -> old <> " "%char ->
  single_spaced b s = true -> replace_char old " " s = s.
Proof.
  intros Hold Hne. revert b.
  induction s as [|c s IH]; intros b; simpl; [reflexivity|].
  destruct (ascii_dec c old) as [->|Hc].
  - rewrite Hold. destruct (ascii_dec old " "%char); [contradiction|discriminate].
  - destruct (isspace c).
    + destruct (ascii_dec c " "%char); [|discriminate].
      intros [_ H]%andb_true_iff. now rewrite (IH true H).
    + intros H. now rewrite (IH false H).
Qed.

(** ** Dictionaries *)

Lemma str_eqb_eq a b : str_eqb a b = true <-> a = b.
Proof. unfold str_eqb. destruct (str_eq_dec a b); split; congruence. Qed.

Lemma str_eqb_case a b : str_eqb a b = if str_eq_dec a b then true else false.
Proof. reflexivity. Qed.

Lemma dict_get_set {V} (d : dict str V) k v k' dflt :
  dict_get str_eqb (dict_set str_eqb d k v) k' dflt =
  if str_eq_dec k k' then v else dict_get str_eqb d k' dflt.
Proof.
  induction d as [|[k0 v0] d IH]; cbn [dict_get dict_set].
  - rewrite str_eqb_case. destruct (str_eq_dec k k'); reflexivity.
  - rewrite (str_eqb_case k0 k). destruct (str_eq_dec k0 k) as [->|Hk0];
      cbn [dict_get]; rewrite !str_eqb_case.
    + destruct (str_eq_dec k k'); reflexivity.
    + destruct (str_eq_dec k0 k') as [->|Hk0'].
      * destruct (str_eq_dec k k'); [congruence|reflexivity].
      * exact IH.
Qed.

(** ** Floats *)

Lemma fle_spec a b : fle a b = true <-> a <= b.
Proof. apply Qle_bool_iff. Qed.

Lemma flt_spec a b : flt a b = true <-> a < b.
Proof.
  unfold flt. rewrite negb_true_iff. split.
  - intros H. apply Qnot_le_lt. intros Hle.
    apply Qle_bool_iff in Hle. congruence.
  - intros H. destruct (Qle_bool b a) eqn:E; [|reflexivity].
    apply Qle_bool_iff in E. exfalso. exact (Qlt_not_le _ _ H E).
Qed.

Lemma fle_false a b : fle a b = false <-> b < a.
Proof.
  rewrite <- flt_spec. unfold flt, fle. now rewrite negb_true_iff.
Qed.

Lemma flt_false a b : flt a b = false <-> b <= a.
Proof.
  rewrite <- fle_spec. unfold flt, fle. now rewrite negb_false_iff.
Qed.

Lemma fmul_eq a b : fmul a b == a * b.
Proof. apply Qred_correct. Qed.

Lemma fsub_eq a b : fsub a b == a - b.
Proof. apply Qred_correct. Qed.

Lemma fdiv_some a b : ~ b == 0 -> exists q, fdiv a b = Some q /\ q == a / b.
Proof.
  intros Hb. unfold fdiv. destruct (Qeq_bool b 0) eqn:E.
  - apply Qeq_bool_iff in E. contradiction.
  - eexists. split; [reflexivity|]. apply Qred_correct.
Qed.

Lemma of_int_nonzero n : n <> 0%Z -> ~ of_int n == 0.
Proof.
  unfold of_int, inject_Z, Qeq. simpl. lia.
Qed.

(** ** The runtime on small inputs *)

Example split_runs :
  split (lit "  ab c  de ") = [lit "ab"; lit "c"; lit "de"].
Proof. reflexivity. Qed.

Example re_split_term_trailing :
  re_split_term (lit "Hi. there!? ok.") = [lit "Hi"; lit " there"; lit " ok"; []].
Proof. reflexivity. Qed.

Example re_split_term_leading :
  re_split_term (lit "..a..b") = [[]; lit "a"; lit "b"].
Proof. reflexivity. Qed.

Example count_does_not_overlap :
  count (lit " i ") (lit " i i i ") = 2%nat /\ count (lit "aa") (lit "aaaa") = 2%nat.
Proof. split; reflexivity. Qed.

Example strip_both_ends : strip (lit "  a b  ") = lit "a b".
Proof. reflexivity. Qed.

End PyFacts.

(* ================================================================== *)
(** * Properties of text_utils.py                                      *)
(* ================================================================== *)
Module TextUtilsFacts.
Import Py Spec PyFacts TextUtils.

Lemma any_in_spec phrases s : any_in phrases s = true <-> Mentions phrases s.
Proof.
  unfold any_in, any, Mentions. rewrite existsb_exists, Exists_exists.
  split; intros [p [Hin Hp]]; exists p; split; auto;
    now apply contains_spec.
Qed.


(** ** The normaliser *)

Lemma preprocess_text_normal s :
  let o := preprocess_text s in
  single_spaced false o = true /\ strip o = o /\ lower o = o.
Proof.
  unfold preprocess_text. destruct (is_empty s); [now repeat split|].
  cbv zeta. repeat split.
  - rewrite single_spaced_lower. apply single_spaced_strip.
    apply re_sub_ws_single_spaced.
  - now rewrite strip_lower, strip_idem.
  - apply lower_idem.
Qed.

(** C9. [preprocess_text] is idempotent: normalising a normalised text gives
    it back unchanged; and the empty string is normalised to the empty
    string. *)
Theorem preprocess_text_idempotent :
  (forall s : str, preprocess_text (preprocess_text s) = preprocess_text s)
  /\ preprocess_text [] = [].
Proof.
  split; [|reflexivity]. intros s.
  destruct (preprocess_text_normal s) as [Hss [Hstrip Hlow]].
  cbv zeta in *. set (o := preprocess_text s) in *.
  unfold preprocess_text at 1. destruct (is_empty o) eqn:He.
  - destruct o; [reflexivity|discriminate].
  - rewrite (single_spaced_replace false o "013"%char);
      [|reflexivity|discriminate|exact Hss].
    rewrite (single_spaced_replace false o "010"%char);
      [|reflexivity|discriminate|exact Hss].
    rewrite (single_spaced_fixed _ _ Hss), Hstrip. exact Hlow.
Qed.

(** ** Sentences *)

Lemma get_basic_stats_blank text :
  split text = [] -> get_basic_stats text = mkStats [] 0 0 [] 0.
Proof.
  intros H. unfold get_basic_stats.
  now rewrite (strip_blank text (split_nil_blank text H)).
Qed.


(** ** The salutation level *)

(** The level is decided by the first sentence alone. *)
Lemma detect_salutation_level_first text first X :
  sentences (get_basic_stats text) = first :: X ->
  detect_salutation_level text =
  Some (if any_in enthusiastic_phrases (lower first) then 5
        else if any_in formal_greetings (lower first) then 4
        else if any_in simple_greetings (lower first) then 2
        else 0)%Z.
Proof.
  intros H. unfold detect_salutation_level.
  destruct text as [|c text]; [discriminate H|].
  cbn [is_empty]. rewrite H. cbn [is_empty nth_error bind].
  repeat match goal with |- context [if ?b then _ else _] =>
    destruct b end; reflexivity.
Qed.

Lemma detect_salutation_level_none text :
  sentences (get_basic_stats text) = [] ->
  detect_salutation_level text = Some 0%Z.
Proof.
  intros H. unfold detect_salutation_level.
  destruct (is_empty text); [reflexivity|]. now rewrite H.
Qed.



(** ** Counting fillers *)

Lemma count_tokens_fold toks d f :
  dict_get str_eqb
    (fold_left
       (fun token_counts t =>
          dict_set str_eqb token_counts t
            (dict_get str_eqb token_counts t 0 + 1)%Z) toks d) f 0%Z
  = (dict_get str_eqb d f 0 + Z.of_nat (count_occ str_eq_dec toks f))%Z.
Proof.
  revert d. induction toks as [|t toks IH]; intros d; cbn [fold_left count_occ].
  - lia.
  - rewrite IH, dict_get_set.
    destruct (str_eq_dec t f) as [->|Hne]; lia.
Qed.

(** [token_counts.get(f, 0)] is the number of tokens equal to [f]. *)
Lemma count_tokens_get toks f :
  dict_get str_eqb (count_tokens toks) f 0%Z
  = Z.of_nat (count_occ str_eq_dec toks f).
Proof. unfold count_tokens. now rewrite count_tokens_fold. Qed.

Lemma filler_loop_sum text fs acc :
  fold_left
    (fun count f =>
       let f := strip (lower f) in
       if contains (lit " ") f
       then (count + Z.of_nat (Py.count f (lower text)))%Z
       else (count
             + dict_get str_eqb (count_tokens (split (lower text))) f 0)%Z)
    fs acc
  = (acc + zsum (map (filler_occurrences text) fs))%Z.
Proof.
  revert acc. induction fs as [|f fs IH]; intros acc;
    cbn [fold_left map zsum fold_right]; [lia|].
  rewrite IH. fold (zsum (map (filler_occurrences text) fs)).
  unfold filler_occurrences at 2. cbv zeta.
  destruct (contains (lit " ") (strip (lower f)));
    rewrite ?count_tokens_get; lia.
Qed.

Lemma filler_occurrences_empty f : filler_occurrences [] f = 0%Z.
Proof.
  unfold filler_occurrences. cbv zeta. cbn [lower map split count_occ].
  destruct (contains (lit " ") (strip (lower f))) eqn:E; [|reflexivity].
  destruct (strip (lower f)); [discriminate E|reflexivity].
Qed.

Lemma count_filler_words_sum text fillers :
  count_filler_words text fillers
  = zsum (map (filler_occurrences text) fillers).
Proof.
  unfold count_filler_words. destruct text as [|c text]; cbn [is_empty].
  - induction fillers as [|f fs IH]; [reflexivity|].
    cbn [map zsum fold_right]. fold (zsum (map (filler_occurrences []) fs)).
    rewrite <- IH, filler_occurrences_empty. reflexivity.
  - cbv zeta. rewrite filler_loop_sum. lia.
Qed.

End TextUtilsFacts.

(* ================================================================== *)
(** * Properties of scoring.py                                         *)
(* ================================================================== *)
Module ScoringFacts.
Import Py Spec PyFacts TextUtils TextUtilsFacts Scoring.

(** Split on the float comparisons of a band table, one at a time, and turn
    each outcome into an order fact. *)
Ltac band_cases :=
  repeat match goal with
  | |- context [fle ?a ?b] =>
      let E := fresh "E" in
      destruct (fle a b) eqn:E;
      [apply fle_spec in E | apply fle_false in E];
      cbn [andb orb negb]
  | |- context [flt ?a ?b] =>
      let E := fresh "E" in
      destruct (flt a b) eqn:E;
      [apply flt_spec in E | apply flt_false in E];
      cbn [andb orb negb]
  end.

Ltac band_solve :=
  band_cases; repeat split; intros; try reflexivity; try lia; try lra.

(** ** Speech rate *)

Lemma score_speech_rate_total tw d :
  exists score wpm,
    score_speech_rate tw d = Some (score, wpm)
    /\ (score = 0 \/ score = 2 \/ score = 6 \/ score = 10)%Z.
Proof.
  unfold score_speech_rate.
  destruct ((tw =? 0)%Z || fle d 0) eqn:G.
  - exists 0%Z, 0. auto.
  - apply orb_false_iff in G as [_ Hd]. apply fle_false in Hd.
    destruct (fdiv_some (fmul (of_int tw) 60) d) as [q [-> _]]; [lra|].
    cbn [bind]. eexists _, q. split; [reflexivity|].
    repeat match goal with |- context [if ?b then _ else _] =>
      destruct b end; auto.
Qed.

Lemma score_speech_rate_degenerate tw d :
  tw = 0%Z \/ d <= 0 -> score_speech_rate tw d = Some (0%Z, 0).
Proof.
  intros [-> | Hd]; unfold score_speech_rate.
  - reflexivity.
  - apply fle_spec in Hd. rewrite Hd, orb_true_r. reflexivity.
Qed.



(** ** Flow *)

Lemma tag_in_spec tag tags : tag_in tag tags = true <-> In tag tags.
Proof.
  unfold tag_in. rewrite existsb_exists. split.
  - intros [x [Hin Hx]]. apply String.eqb_eq in Hx. now subst.
  - intros H. exists tag. split; [exact H|apply String.eqb_refl].
Qed.

Lemma score_flow_range sentences tags :
  (score_flow sentences tags = 0 \/ score_flow sentences tags = 5)%Z.
Proof.
  unfold score_flow.
  repeat match goal with |- context [if ?b then _ else _] =>
    destruct b end; auto.
Qed.




(** ** Keywords *)

Lemma keyword_loop_score kw pts concepts st :
  fst (fst (keyword_loop kw pts concepts st))
  = (fst (fst st) + pts * detected kw (map snd concepts))%Z.
Proof.
  unfold keyword_loop, detected. revert st.
  induction concepts as [|[label key] cs IH]; intros [[score present] missing].
  - simpl. lia.
  - cbn [fold_left map snd filter].
    destruct (dict_get String.eqb kw key false); rewrite IH;
      cbn [fst length]; lia.
Qed.

Lemma detected_bounds kw keys :
  (0 <= detected kw keys <= Z.of_nat (length keys))%Z.
Proof.
  unfold detected. split; [lia|]. apply Nat2Z.inj_le, filter_length_le.
Qed.

Lemma score_keywords_score text :
  fst (fst (score_keywords text))
  = (4 * detected (detect_keywords text) (map snd must_haves)
     + 2 * detected (detect_keywords text) (map snd good_to_have))%Z.
Proof.
  unfold score_keywords. rewrite !keyword_loop_score. cbn [fst]. lia.
Qed.

Lemma score_keywords_range text :
  (0 <= fst (fst (score_keywords text)) <= 30)%Z.
Proof.
  rewrite score_keywords_score.
  pose proof (detected_bounds (detect_keywords text) (map snd must_haves)).
  pose proof (detected_bounds (detect_keywords text) (map snd good_to_have)).
  cbn [must_haves good_to_have map length] in *. lia.
Qed.

(** A phrase of a list found in the raw text is found by [any_in] in the
    lowercased text. *)
Lemma any_in_of_contains phrases q p text :
  In p phrases -> contains p (lower q) = true -> contains q text = true ->
  any_in phrases (lower text) = true.
Proof.
  intros Hin Hp Hq. apply any_in_spec, Exists_exists. exists p.
  split; [exact Hin|]. apply contains_spec.
  apply (contains_trans p (lower q)); [exact Hp|now apply contains_lower].
Qed.

(** C5. The keyword score is 4 times the number of must-have concepts
    detected plus 2 times the number of good-to-have concepts detected, at
    most 30; a transcript that contains "my name is", "14 years old",
    "class 9", "my parents" and "I enjoy reading" has all five must-haves,
    hence 20 points plus 2 for each good-to-have detected. *)
Theorem score_keywords_formula :
  (forall text,
     let kw := detect_keywords text in
     fst (fst (score_keywords text))
     = (4 * detected kw ["has_name"; "has_age"; "has_school_class";
                         "has_family"; "has_hobbies"]%string
        + 2 * detected kw ["has_about_family"; "has_location";
                           "has_ambition"; "has_fun_fact";
                           "has_strengths_or_achievements"]%string)%Z
     /\ (0 <= fst (fst (score_keywords text)) <= 30)%Z)
  /\ (forall text,
        contains (lit "my name is") text = true ->
        contains (lit "14 years old") text = true ->
        contains (lit "class 9") text = true ->
        contains (lit "my parents") text = true ->
        contains (lit "I enjoy reading") text = true ->
        let kw := detect_keywords text in
        detected kw ["has_name"; "has_age"; "has_school_class";
                     "has_family"; "has_hobbies"]%string = 5%Z
        /\ fst (fst (score_keywords text))
           = (20 + 2 * detected kw ["has_about_family"; "has_location";
                                    "has_ambition"; "has_fun_fact";
                                    "has_strengths_or_achievements"]%string)%Z).
Proof.
  split.
  - intros text. cbv zeta. split.
    + apply score_keywords_score.
    + apply score_keywords_range.
  - intros text Hname Hage Hclass Hfam Hhobby. cbv zeta.
    assert (H5 : detected (detect_keywords text)
                   ["has_name"; "has_age"; "has_school_class";
                    "has_family"; "has_hobbies"]%string = 5%Z).
    { unfold detected, detect_keywords.
      cbn [filter dict_get String.eqb Ascii.eqb Bool.eqb].
      rewrite (any_in_of_contains name_phrases (lit "my name is")
                 (lit "my name is") text); [|now left|reflexivity|exact Hname].
      assert (Ha : contains age_phrase (lower text) = true).
      { apply (contains_trans _ (lower (lit "14 years old")));
          [reflexivity|now apply contains_lower]. }
      rewrite Ha.
      rewrite (any_in_of_contains school_phrases (lit "class 9")
                 (lit "class ") text); [|now left|reflexivity|exact Hclass].
      rewrite (any_in_of_contains family_phrases (lit "my parents")
                 (lit "parents") text);
        [|right; right; right; now left|reflexivity|exact Hfam].
      rewrite (any_in_of_contains hobby_phrases (lit "I enjoy reading")
                 (lit "i enjoy") text);
        [|do 4 right; now left|reflexivity|exact Hhobby].
      reflexivity. }
    split; [exact H5|].
    rewrite score_keywords_score.
    change (map snd must_haves) with
      ["has_name"; "has_age"; "has_school_class"; "has_family";
       "has_hobbies"]%string.
    rewrite H5. reflexivity.
Qed.

Lemma score_keywords_formula_witness :
  fst (fst (score_keywords
    (lit "Hi. my name is Ann, I am 14 years old, in class 9. I live in Pune with my parents. I enjoy reading.")))
  = 22%Z.
Proof.
  destruct (proj2 score_keywords_formula
    (lit "Hi. my name is Ann, I am 14 years old, in class 9. I live in Pune with my parents. I enjoy reading.")
    eq_refl eq_refl eq_refl eq_refl eq_refl) as [_ H].
  rewrite H. reflexivity.
Defined.

(** ** Clarity *)

Lemma clarity_band_range r :
  (clarity_band r = 3 \/ clarity_band r = 6 \/ clarity_band r = 9
   \/ clarity_band r = 12 \/ clarity_band r = 15)%Z.
Proof.
  unfold clarity_band.
  repeat match goal with |- context [if ?b then _ else _] =>
    destruct b end; auto 6.
Qed.

Lemma score_clarity_total text tw :
  exists score rate fc,
    score_clarity text tw = Some (score, rate, fc)
    /\ (0 <= score <= 15)%Z.
Proof.
  unfold score_clarity. destruct (tw =? 0)%Z eqn:Hz.
  - exists 0%Z, 0, 0%Z. split; [reflexivity|lia].
  - apply Z.eqb_neq in Hz.
    destruct (fdiv_some (of_int (count_filler_words text fillers)) (of_int tw))
      as [q [-> _]]; [now apply of_int_nonzero|].
    cbn [bind]. eexists _, _, _. split; [reflexivity|].
    destruct (clarity_band_range (fmul q 100)) as [H|[H|[H|[H|H]]]];
      rewrite H; lia.
Qed.

(** C7. With a positive word count, the filler rate is
    filler_count / total_words * 100, where filler_count adds up, over the
    fifteen fillers, the tokens of the lowercased text equal to a one-word
    filler and the occurrences in the lowercased text of a filler that has a
    space in it; the rate is scored 15 within 0..3, 12 within 4..6, 9 within
    7..9, 6 within 10..12 and 3 anywhere else.  Five fillers in 100 words
    give the rate 5.0 and the score 12. *)
Theorem score_clarity_bands :
  (forall text tw, (tw > 0)%Z ->
     let tok w := Z.of_nat (count_occ str_eq_dec (split (lower text)) (lit w)) in
     let occ p := Z.of_nat (count (lit p) (lower text)) in
     exists score rate fc,
       score_clarity text tw = Some (score, rate, fc)
       /\ fc = count_filler_words text fillers
       /\ fc = (tok "um" + tok "uh" + tok "like" + occ "you know" + tok "so"
                + tok "actually" + tok "basically" + tok "right"
                + occ "i mean" + tok "well" + tok "kinda" + occ "sort of"
                + tok "okay" + tok "hmm" + tok "ah")%string%Z
       /\ rate == inject_Z fc / inject_Z tw * 100
       /\ (0 <= rate <= 3 -> score = 15%Z)
       /\ (4 <= rate <= 6 -> score = 12%Z)
       /\ (7 <= rate <= 9 -> score = 9%Z)
       /\ (10 <= rate <= 12 -> score = 6%Z)
       /\ (~ 0 <= rate <= 3 -> ~ 4 <= rate <= 6 -> ~ 7 <= rate <= 9 ->
           ~ 10 <= rate <= 12 -> score = 3%Z))
  /\ (forall text,
        count_filler_words text fillers = 5%Z ->
        score_clarity text 100 = Some (12%Z, 5, 5%Z)).
Proof.
  split.
  - intros text tw Htw. cbv zeta. unfold score_clarity.
    assert (Hz : (tw =? 0)%Z = false) by (apply Z.eqb_neq; lia).
    rewrite Hz.
    destruct (fdiv_some (of_int (count_filler_words text fillers)) (of_int tw))
      as [q [-> Hq]]; [apply of_int_nonzero; lia|].
    cbn [bind]. eexists _, _, _. split; [reflexivity|].
    split; [reflexivity|]. split.
    { rewrite count_filler_words_sum. unfold fillers, filler_occurrences.
      cbn [map zsum fold_right].
      repeat match goal with
      | |- context [strip (lower (lit ?w))] =>
          change (strip (lower (lit w))) with (lit w)
      end.
      repeat match goal with
      | |- context [contains (lit " ") (lit ?w)] =>
          let b := eval vm_compute in (contains (lit " ") (lit w)) in
          change (contains (lit " ") (lit w)) with b
      end.
      cbv iota. lia. }
    split; [now rewrite fmul_eq, Hq|].
    unfold clarity_band. generalize (fmul q 100). clear. intros r.
    band_cases; repeat split; intros; try reflexivity;
      try (exfalso; lra);
      match goal with H : ~ _ |- _ => exfalso; apply H; lra end.
  - intros text H. unfold score_clarity. rewrite H. reflexivity.
Qed.

Lemma score_clarity_bands_witness :
  count_filler_words (lit "Um so I like well uh books") fillers = 5%Z
  /\ score_clarity (lit "Um so I like well uh books") 100
     = Some (12%Z, 5, 5%Z).
Proof.
  split; [reflexivity|].
  apply (proj2 score_clarity_bands). reflexivity.
Defined.

(** ** Blank text *)

Lemma any_in_blank phrases t :
  forallb isspace t = true ->
  forallb (fun p => negb (forallb isspace p)) phrases = true ->
  any_in phrases t = false.
Proof.
  intros Ht. unfold any_in, any.
  induction phrases as [|p ps IH]; cbn [forallb existsb]; [reflexivity|].
  intros [Hp Hps]%andb_true_iff. apply negb_true_iff in Hp.
  now rewrite (contains_blank p t Ht Hp), (IH Hps).
Qed.

Lemma re_sub_ws_blank b s :
  forallb isspace s = true -> forallb isspace (re_sub_ws b s) = true.
Proof.
  revert b. induction s as [|c s IH]; intros b; simpl; [reflexivity|].
  intros [Hc Hs]%andb_true_iff. rewrite Hc.
  destruct b; simpl; auto.
Qed.

Lemma replace_char_blank old s :
  forallb isspace s = true ->
  forallb isspace (replace_char old " " s) = true.
Proof.
  induction s as [|c s IH]; simpl; [reflexivity|].
  intros [Hc Hs]%andb_true_iff. rewrite (IH Hs), andb_true_r.
  destruct (ascii_dec c old); [reflexivity|exact Hc].
Qed.

(** A transcript without words is normalised to the empty string. *)
Lemma preprocess_text_blank text : split text = [] -> preprocess_text text = [].
Proof.
  intros H. apply split_nil_blank in H. unfold preprocess_text.
  destruct (is_empty text); [reflexivity|].
  rewrite strip_blank; [reflexivity|].
  now apply re_sub_ws_blank, replace_char_blank, replace_char_blank.
Qed.

Lemma score_keywords_blank text :
  split text = [] -> fst (fst (score_keywords text)) = 0%Z.
Proof.
  intros H. apply split_nil_blank in H.
  rewrite <- forallb_isspace_lower in H.
  unfold score_keywords, detect_keywords. cbv zeta.
  rewrite !(any_in_blank _ (lower text) H) by reflexivity.
  rewrite (contains_blank age_phrase (lower text) H) by reflexivity.
  reflexivity.
Qed.

(** ** Grammar and vocabulary *)

Lemma zmax_one tw : (1 <= zmax tw 1)%Z.
Proof. unfold zmax. destruct (tw <? 1)%Z eqn:E; lia. Qed.

Lemma score_grammar_total text tw :
  exists score e,
    score_grammar text tw = Some (score, e) /\ (0 <= score <= 10)%Z.
Proof.
  unfold score_grammar. destruct (tw =? 0)%Z.
  - exists 0%Z, 0. split; [reflexivity|lia].
  - match goal with |- context [fdiv ?a (of_int (zmax tw 1))] =>
      destruct (fdiv_some a (of_int (zmax tw 1))) as [q [-> _]]
    end.
    { apply of_int_nonzero. pose proof (zmax_one tw). lia. }
    cbn [bind].
    destruct (fdiv_some (fmin (fmul q 100) 100) 20) as [r [-> _]];
      [discriminate|].
    cbn [bind]. eexists _, _. split; [reflexivity|].
    repeat match goal with |- context [if ?b then _ else _] =>
      destruct b end; lia.
Qed.

Lemma score_vocabulary_total tw dw :
  exists score ttr,
    score_vocabulary tw dw = Some (score, ttr) /\ (0 <= score <= 10)%Z.
Proof.
  unfold score_vocabulary, compute_ttr. destruct (tw =? 0)%Z eqn:Hz.
  - exists 0%Z, 0. split; [reflexivity|lia].
  - apply Z.eqb_neq in Hz.
    destruct (fdiv_some (of_int dw) (of_int tw)) as [q [-> _]];
      [now apply of_int_nonzero|].
    cbn [bind]. eexists _, _. split; [reflexivity|].
    repeat match goal with |- context [if ?b then _ else _] =>
      destruct b end; lia.
Qed.

(** ** Salutation *)

Lemma score_salutation_total text :
  exists score,
    score_salutation text = Some score
    /\ (score = 0 \/ score = 2 \/ score = 4 \/ score = 5)%Z.
Proof.
  unfold score_salutation.
  destruct (sentences (get_basic_stats text)) as [|first X] eqn:E.
  - exists 0%Z. split; [now apply detect_salutation_level_none|auto].
  - eexists. split; [apply (detect_salutation_level_first _ _ _ E)|].
    repeat match goal with |- context [if ?b then _ else _] =>
      destruct b end; auto.
Qed.

(** ** Dictionary lookups of the criterion tables *)

Lemma dict_lookup_map {A B} (f : A -> B) (d : dict string A) k :
  dict_lookup (map (fun kd => (fst kd, f (snd kd))) d) k
  = option_map f (dict_lookup d k).
Proof.
  induction d as [|[k0 v0] d IH]; cbn [map dict_lookup fst snd];
    [reflexivity|].
  destruct (String.eqb k0 k); [reflexivity|exact IH].
Qed.

Lemma dict_mem_lookup {A} (d : dict string A) k :
  dict_mem d k = match dict_lookup d k with Some _ => true | None => false end.
Proof.
  unfold dict_mem. induction d as [|[k0 v0] d IH];
    cbn [existsb dict_lookup fst]; [reflexivity|].
  destruct (String.eqb k0 k); [reflexivity|exact IH].
Qed.

(** ** The clamp *)

Lemma clamp01_spec sim :
  0 <= clamp01 sim <= 1
  /\ (1 < sim -> clamp01 sim = 1)
  /\ (sim < 0 -> clamp01 sim = 0)
  /\ (0 <= sim <= 1 -> clamp01 sim == sim).
Proof.
  unfold clamp01, fmax, fmin.
  destruct (flt sim 1) eqn:E1;
    [apply flt_spec in E1 | apply flt_false in E1].
  - destruct (flt 0 sim) eqn:E2;
      [apply flt_spec in E2 | apply flt_false in E2];
      repeat split; intros; try reflexivity; try lra.
  - change (flt 0 1) with true. cbv iota.
    repeat split; intros; try reflexivity; try lra.
Qed.

Section ExternalTools.

Variable polarity_scores : str -> dict string float.
Variable embedding : Type.
Variable encode : str -> embedding.
Variable pytorch_cos_sim : embedding -> embedding -> float.

Let similarity := compute_semantic_similarity embedding encode pytorch_cos_sim.

(** The similarity never raises: it is the clamped raw cosine for a key of
    the table, and 0 for any other key. *)
Lemma compute_semantic_similarity_eq text criterion_key :
  similarity text criterion_key
  = Some match dict_lookup CRITERION_DESCRIPTIONS criterion_key with
         | Some desc => clamp01 (pytorch_cos_sim (encode text) (encode desc))
         | None => 0
         end.
Proof.
  unfold similarity, compute_semantic_similarity.
  rewrite dict_mem_lookup. unfold CRITERION_EMBEDDINGS.
  rewrite dict_lookup_map.
  now destruct (dict_lookup CRITERION_DESCRIPTIONS criterion_key).
Qed.

(** C8. [compute_semantic_similarity] returns, for every text and every
    criterion key, a value in [0, 1]: for a key of the table it is the raw
    cosine of the transcript's embedding and the criterion description's
    embedding, clamped, so a raw cosine above 1 gives exactly 1.0 and a raw
    cosine below 0 gives exactly 0.0; for any other key it is 0.0. *)
Theorem compute_semantic_similarity_clamped :
  forall (text : str) (criterion_key : string),
    exists sim,
      similarity text criterion_key = Some sim
      /\ 0 <= sim <= 1
      /\ match dict_lookup CRITERION_DESCRIPTIONS criterion_key with
         | Some desc =>
             let raw := pytorch_cos_sim (encode text) (encode desc) in
             (1 < raw -> sim = 1)
             /\ (raw < 0 -> sim = 0)
             /\ (0 <= raw <= 1 -> sim == raw)
         | None => sim = 0
         end.
Proof.
  intros text key. rewrite compute_semantic_similarity_eq.
  eexists. split; [reflexivity|].
  destruct (dict_lookup CRITERION_DESCRIPTIONS key) as [desc|].
  - destruct (clamp01_spec (pytorch_cos_sim (encode text) (encode desc)))
      as [Hr [Hhi [Hlo Hin]]].
    split; [exact Hr|]. cbv zeta. auto.
  - split; [lra|reflexivity].
Qed.

(** ** Engagement *)

Lemma score_engagement_range text :
  let score := fst (score_engagement polarity_scores text) in
  (score = 3 \/ score = 6 \/ score = 9 \/ score = 12 \/ score = 15)%Z.
Proof.
  unfold score_engagement. cbn [fst].
  repeat match goal with |- context [if ?b then _ else _] =>
    destruct b end; auto 6.
Qed.

(** ** The whole pipeline *)

Let score := score_transcript polarity_scores embedding encode pytorch_cos_sim.

(** [score_transcript] never raises, its total is the sum of the eight
    sub-scores, and each sub-score is within its band outputs. *)
Lemma score_transcript_total text duration_sec :
  exists r,
    score text duration_sec = Some r
    /\ total_score r
       = (salutation_score r + keyword_score r + flow_score r
          + speech_score r + grammar_score r + vocab_score r
          + clarity_score r + engagement_score r)%Z
    /\ (0 <= salutation_score r <= 5)%Z
    /\ (0 <= keyword_score r <= 30)%Z
    /\ (0 <= flow_score r <= 5)%Z
    /\ (0 <= speech_score r <= 10)%Z
    /\ (0 <= grammar_score r <= 10)%Z
    /\ (0 <= vocab_score r <= 10)%Z
    /\ (0 <= clarity_score r <= 15)%Z
    /\ (3 <= engagement_score r <= 15)%Z
    /\ engagement_score r = fst (score_engagement polarity_scores text).
Proof.
  unfold score, score_transcript.
  set (clean := preprocess_text text).
  set (st := get_basic_stats clean).
  destruct (score_salutation_total clean) as [sal [-> Hsal]].
  cbn [bind].
  pose proof (score_keywords_range clean) as Hkw.
  destruct (score_keywords clean) as [[kws present] missing].
  cbn [fst] in Hkw.
  pose proof (score_flow_range (sentences st)
                (detect_structure_tags (sentences st))) as Hflow.
  destruct (score_speech_rate_total (total_words st) duration_sec)
    as [sp [wpm [-> Hsp]]].
  cbn [bind].
  destruct (score_grammar_total text (total_words st)) as [gr [e [-> Hgr]]].
  cbn [bind].
  destruct (score_vocabulary_total (total_words st) (distinct_words st))
    as [vo [ttr [-> Hvo]]].
  cbn [bind].
  destruct (score_clarity_total clean (total_words st))
    as [cl [rate [fc [-> Hcl]]]].
  cbn [bind].
  pose proof (score_engagement_range text) as Heng. cbv zeta in Heng.
  destruct (score_engagement polarity_scores text) as [eng pos].
  cbn [fst] in Heng.
  pose proof (compute_semantic_similarity_eq clean "content") as H1.
  pose proof (compute_semantic_similarity_eq clean "language") as H2.
  pose proof (compute_semantic_similarity_eq clean "clarity") as H3.
  pose proof (compute_semantic_similarity_eq clean "engagement") as H4.
  unfold similarity in H1, H2, H3, H4. rewrite H1, H2, H3, H4.
  cbn [bind]. eexists. split; [reflexivity|].
  cbn [total_score salutation_score keyword_score flow_score speech_score
       grammar_score vocab_score clarity_score engagement_score].
  repeat split; try lia.
Qed.

(** C1. For every transcript and duration, [score_transcript] returns a
    result whose total_score is exactly the sum of the eight sub-scores and
    lies in [0, 100]. *)
Theorem total_score_sum_and_range :
  forall (text : str) (duration_sec : float),
    exists r,
      score text duration_sec = Some r
      /\ total_score r
         = (salutation_score r + keyword_score r + flow_score r
            + speech_score r + grammar_score r + vocab_score r
            + clarity_score r + engagement_score r)%Z
      /\ (0 <= total_score r <= 100)%Z.
Proof.
  intros text d. destruct (score_transcript_total text d) as [r H].
  exists r. intuition lia.
Qed.

(** C10. [score_engagement] returns 3, 6, 9, 12 or 15 for every text, the
    empty one included, so never 0; hence the total_score of
    [score_transcript] is at least 3 for every input, an empty transcript
    with a zero duration included. *)
Theorem engagement_never_zero :
  (forall text : str,
     let s := fst (score_engagement polarity_scores text) in
     (s = 3 \/ s = 6 \/ s = 9 \/ s = 12 \/ s = 15)%Z /\ s <> 0%Z)
  /\ (forall (text : str) (duration_sec : float),
        exists r, score text duration_sec = Some r
                  /\ (3 <= total_score r)%Z)
  /\ (exists r, score [] 0 = Some r
                /\ (3 <= total_score r)%Z
                /\ total_score r = engagement_score r).
Proof.
  split; [|split].
  - intros text. cbv zeta. pose proof (score_engagement_range text) as H.
    cbv zeta in H. split; [exact H|]. lia.
  - intros text d. destruct (score_transcript_total text d) as [r H].
    exists r. intuition lia.
  - destruct (score_transcript_total [] 0) as [r [Hr H]].
    exists r. split; [exact Hr|]. split; [intuition lia|]. clear H.
    unfold score, score_transcript in Hr.
    cbn in Hr. injection Hr as <-.
    cbn [total_score engagement_score]. lia.
Qed.

(** C2, as the code has it.  On a degenerate input (a transcript without
    words, a duration that is zero or negative) the salutation, keyword,
    flow, speech-rate, grammar, vocabulary and clarity scorers return the
    score 0 and do not raise.  [score_engagement] has no such guard: it does
    not raise, and returns a score from 3 to 15, 3 whenever the positivity is
    below 0.1.  So a transcript without words gets, for any duration, seven
    sub-scores 0 and a total equal to its engagement score. *)
Theorem degenerate_input_scores :
  (forall text, split text = [] ->
     total_words (get_basic_stats text) = 0%Z
     /\ score_salutation text = Some 0%Z
     /\ fst (fst (score_keywords text)) = 0%Z
     /\ score_flow (sentences (get_basic_stats text))
          (detect_structure_tags (sentences (get_basic_stats text))) = 0%Z)
  /\ (forall sentences tags,
        sentences = [] \/ tags = [] -> score_flow sentences tags = 0%Z)
  /\ (forall tw d, tw = 0%Z \/ d <= 0 ->
        score_speech_rate tw d = Some (0%Z, 0))
  /\ (forall text, score_grammar text 0 = Some (0%Z, 0))
  /\ (forall dw, score_vocabulary 0 dw = Some (0%Z, 0))
  /\ (forall text, score_clarity text 0 = Some (0%Z, 0, 0%Z))
  /\ (forall text,
        let pos := dict_get String.eqb (polarity_scores text) "pos"%string 0 in
        let s := fst (score_engagement polarity_scores text) in
        (3 <= s <= 15)%Z /\ (pos < 0.1 -> s = 3%Z))
  /\ (forall text duration_sec, split text = [] ->
        exists r,
          score text duration_sec = Some r
          /\ salutation_score r = 0%Z /\ keyword_score r = 0%Z
          /\ flow_score r = 0%Z /\ speech_score r = 0%Z
          /\ grammar_score r = 0%Z /\ vocab_score r = 0%Z
          /\ clarity_score r = 0%Z
          /\ total_score r = engagement_score r
          /\ (3 <= engagement_score r)%Z).
Proof.
  split; [|split; [|split; [|split; [|split; [|split; [|split]]]]]].
  - intros text H. rewrite (get_basic_stats_blank text H).
    repeat split.
    + unfold score_salutation. apply detect_salutation_level_none.
      now rewrite (get_basic_stats_blank text H).
    + now apply score_keywords_blank.
  - intros sentences tags [-> | ->]; unfold score_flow;
      [reflexivity|]. now rewrite orb_true_r.
  - apply score_speech_rate_degenerate.
  - reflexivity.
  - reflexivity.
  - reflexivity.
  - intros text. cbv zeta. split.
    + pose proof (score_engagement_range text) as H. cbv zeta in H. lia.
    + unfold score_engagement. cbn [fst].
      generalize (dict_get String.eqb (polarity_scores text) "pos"%string 0).
      intros pos. band_cases; intros; try reflexivity; exfalso; lra.
  - intros text d H.
    destruct (score_transcript_total text d) as [r [Hr Hrange]].
    exists r. split; [exact Hr|].
    unfold score, score_transcript in Hr.
    rewrite (preprocess_text_blank text H) in Hr.
    cbn in Hr.
    destruct (score_engagement polarity_scores text) as [eng pos].
    injection Hr as <-.
    cbn [total_score salutation_score keyword_score flow_score speech_score
         grammar_score vocab_score clarity_score engagement_score] in *.
    repeat split; lia.
Qed.

End ExternalTools.

Lemma degenerate_input_scores_witness :
  split (lit "  ") = []
  /\ score_salutation (lit "  ") = Some 0%Z
  /\ score_speech_rate 12 0 = Some (0%Z, 0).
Proof.
  split; [reflexivity|].
  pose (H := degenerate_input_scores (fun _ => []) unit (fun _ => tt)
               (fun _ _ => 0)).
  split.
  - apply (proj1 H). reflexivity.
  - apply (proj1 (proj2 (proj2 H))). right. discriminate.
Defined.

(** The sentiment analyser gives positivity 0.0 for an empty text: the
    engagement score is then 3, not 0. *)
Lemma score_engagement_empty_counterexample :
  let vader_scores : str -> dict string float :=
    fun _ => [("neg", 0); ("neu", 0); ("pos", 0); ("compound", 0)]%string in
  split [] = []
  /\ fst (score_engagement vader_scores []) = 3%Z
  /\ fst (score_engagement vader_scores []) <> 0%Z.
Proof.
  cbv zeta. repeat split. discriminate.
Qed.

Lemma compute_semantic_similarity_clamped_witness :
  compute_semantic_similarity unit (fun _ => tt) (fun _ _ => 1.5)
    (lit "hello") "content" = Some 1.
Proof.
  destruct (compute_semantic_similarity_clamped unit (fun _ => tt)
              (fun _ _ => 1.5) (lit "hello") "content")
    as [sim [Hs [_ H]]].
  cbn in H. destruct H as [H _]. rewrite Hs. f_equal. apply H.
  reflexivity.
Defined.

(** ** The sample transcript of [scoring.py] *)

Example sample_transcript_scores :
  let sample_text := lit "Hello everyone, my name is Arjun. I am 14 years old and I study in Class 9 at Sunrise Public School. I live in Bangalore with my parents and my younger sister. In my free time, I enjoy playing football and reading stories. Thank you for listening." in
  option_map
    (fun r => (tags r,
               [salutation_score r; keyword_score r; flow_score r;
                speech_score r; grammar_score r; vocab_score r;
                clarity_score r; engagement_score r],
               total_score r))
    (score_transcript (fun _ => [("pos"%string, 0.25)]) unit (fun _ => tt)
       (fun _ _ => 0.5) sample_text 60)
  = Some (["SALUTATION"; "BASIC"; "BASIC"; "ADDITIONAL"; "CLOSING"]%string,
          [4; 22; 5; 2; 6; 8; 15; 6]%Z, 68%Z).
Proof. vm_compute. reflexivity. Qed.

End ScoringFacts.

(* ================================================================== *)
(** * More facts about the runtime                                     *)
(* ================================================================== *)
Module PyMore.
Import Py Spec PyFacts.

Lemma split_cons c s :
  split (c :: s) =
  if isspace c then split s
  else match s with
       | [] => [[c]]
       | c' :: _ => if isspace c' then [c] :: split s
                    else cons_head c (split s)
       end.
Proof. reflexivity. Qed.

Lemma cons_head_map (f : ascii -> ascii) c l :
  cons_head (f c) (map (map f) l) = map (map f) (cons_head c l).
Proof. destruct l; reflexivity. Qed.

(** ** Tokens are kept by the steps of the normaliser *)

Lemma split_lower s : split (lower s) = map lower (split s).
Proof.
  induction s as [|c s IH]; [reflexivity|].
  change (lower (c :: s)) with (lower_char c :: lower s).
  rewrite !split_cons, isspace_lower_char.
  destruct (isspace c); [exact IH|].
  destruct s as [|d s]; [reflexivity|].
  change (lower (d :: s)) with (lower_char d :: lower s) in *.
  cbv iota. rewrite isspace_lower_char.
  destruct (isspace d).
  - now rewrite IH.
  - rewrite IH. apply (cons_head_map lower_char).
Qed.

Lemma split_lstrip s : split (lstrip s) = split s.
Proof.
  induction s as [|c s IH]; [reflexivity|].
  cbn [lstrip]. rewrite (split_cons c s).
  destruct (isspace c) eqn:Hc; [exact IH|].
  now rewrite split_cons, Hc.
Qed.

Lemma rstrip_head d s x r : rstrip (d :: s) = x :: r -> x = d.
Proof.
  cbn [rstrip]. destruct (rstrip s).
  - destruct (isspace d); [discriminate|]. congruence.
  - congruence.
Qed.

Lemma split_rstrip s : split (rstrip s) = split s.
Proof.
  induction s as [|c s IH]; [reflexivity|].
  cbn [rstrip]. destruct (rstrip s) as [|x r] eqn:E.
  - pose proof (rstrip_nil_blank s E) as Hb.
    rewrite split_cons, (split_blank s Hb).
    destruct (isspace c) eqn:Hc; [reflexivity|].
    rewrite split_cons, Hc. destruct s as [|d s]; [reflexivity|].
    cbn [forallb] in Hb. apply andb_true_iff in Hb as [Hd _].
    now rewrite Hd.
  - destruct s as [|d s]; [discriminate E|].
    pose proof (rstrip_head d s x r E) as ->.
    rewrite (split_cons c (d :: r)), (split_cons c (d :: s)).
    destruct (isspace c); [exact IH|]. cbv iota.
    destruct (isspace d); now rewrite IH.
Qed.

Lemma split_strip s : split (strip s) = split s.
Proof. unfold strip. now rewrite split_rstrip, split_lstrip. Qed.

Lemma split_re_sub_ws b s : split (re_sub_ws b s) = split s.
Proof.
  revert b. induction s as [|c s IH]; intros b; [reflexivity|].
  cbn [re_sub_ws]. rewrite (split_cons c s).
  destruct (isspace c) eqn:Hc.
  - destruct b; [apply IH|]. rewrite split_cons. cbn [isspace]. apply IH.
  - rewrite split_cons, Hc.
    destruct s as [|d s]; [reflexivity|].
    specialize (IH false). cbn [re_sub_ws] in *.
    destruct (isspace d) eqn:Hd; cbv iota.
    + change (isspace " "%char) with true. cbv iota. now rewrite IH.
    + rewrite Hd. now rewrite IH.
Qed.

Lemma split_replace_char old s :
  isspace old = true -> split (replace_char old " " s) = split s.
Proof.
  intros Hold. induction s as [|c s IH]; [reflexivity|].
  assert (Hsp : forall x,
            isspace (if ascii_dec x old then " "%char else x) = isspace x).
  { intros x. destruct (ascii_dec x old) as [->|]; [now rewrite Hold|reflexivity]. }
  change (replace_char old " " (c :: s))
    with ((if ascii_dec c old then " "%char else c) :: replace_char old " " s).
  rewrite !split_cons, Hsp.
  destruct (isspace c) eqn:Hc; [exact IH|].
  destruct (ascii_dec c old) as [->|_]; [congruence|].
  destruct s as [|d s]; [reflexivity|].
  change (replace_char old " " (d :: s))
    with ((if ascii_dec d old then " "%char else d) :: replace_char old " " s)
    in *.
  cbv iota. rewrite Hsp. destruct (isspace d); now rewrite IH.
Qed.

(** ** What tokens and pieces look like *)

Lemma split_tokens_visible s :
  Forall (fun t => t <> [] /\ forallb (fun c => negb (isspace c)) t = true)
         (split s).
Proof.
  induction s as [|c s IH]; [constructor|].
  rewrite split_cons. destruct (isspace c) eqn:Hc; [exact IH|].
  assert (Hone : forall t,
            forallb (fun c => negb (isspace c)) t = true ->
            c :: t <> [] /\ forallb (fun c => negb (isspace c)) (c :: t) = true).
  { intros t Ht. split; [discriminate|]. cbn [forallb]. now rewrite Hc, Ht. }
  destruct s as [|d s]; [constructor; [now apply Hone|constructor]|].
  destruct (isspace d).
  - constructor; [now apply Hone|exact IH].
  - destruct (split (d :: s)) as [|h X]; cbn [cons_head].
    + constructor; [now apply Hone|constructor].
    + inversion IH as [|? ? [_ Hh] HX]; subst.
      constructor; [now apply Hone|exact HX].
Qed.

Lemma re_split_term_pieces s :
  Forall (fun p => forallb (fun c => negb (is_term c)) p = true)
         (re_split_term s).
Proof.
  induction s as [|c s IH]; [repeat constructor|].
  cbn [re_split_term]. destruct (is_term c) eqn:Hc.
  - destruct s as [|d s]; [repeat constructor|].
    destruct (is_term d); [exact IH|]. constructor; [reflexivity|exact IH].
  - destruct (re_split_term s) as [|h X]; cbn [cons_head].
    + constructor; [|constructor]. cbn [forallb]. now rewrite Hc.
    + inversion IH; subst. constructor; [|assumption].
      cbn [forallb]. rewrite Hc. assumption.
Qed.

Lemma forallb_lstrip (f : ascii -> bool) s :
  forallb f s = true -> forallb f (lstrip s) = true.
Proof.
  induction s as [|c s IH]; [reflexivity|]. cbn [lstrip forallb].
  intros [Hc Hs]%andb_true_iff.
  destruct (isspace c); [auto|]. cbn [forallb]. now rewrite Hc, Hs.
Qed.

Lemma forallb_rstrip (f : ascii -> bool) s :
  forallb f s = true -> forallb f (rstrip s) = true.
Proof.
  induction s as [|c s IH]; [reflexivity|]. cbn [rstrip forallb].
  intros [Hc Hs]%andb_true_iff. specialize (IH Hs).
  destruct (rstrip s).
  - destruct (isspace c); [reflexivity|]. cbn [forallb]. now rewrite Hc.
  - cbn [forallb] in *. now rewrite Hc, IH.
Qed.

Lemma forallb_strip (f : ascii -> bool) s :
  forallb f s = true -> forallb f (strip s) = true.
Proof. intros H. now apply forallb_rstrip, forallb_lstrip. Qed.

Lemma lstrip_nil_blank s : lstrip s = [] -> forallb isspace s = true.
Proof.
  induction s as [|c s IH]; [reflexivity|]. cbn [lstrip forallb].
  destruct (isspace c); [auto|discriminate].
Qed.

Lemma strip_nil_blank s : strip s = [] -> forallb isspace s = true.
Proof.
  unfold strip. intros H. apply rstrip_nil_blank in H.
  induction s as [|c s IH]; [reflexivity|]. cbn [lstrip forallb] in *.
  destruct (isspace c) eqn:Hc; [auto|].
  cbn [forallb] in H. now rewrite Hc in H.
Qed.

End PyMore.

(* ================================================================== *)
(** * More properties of text_utils.py                                 *)
(* ================================================================== *)
Module TextUtilsMore.
Import Py Spec PyFacts PyMore TextUtils TextUtilsFacts.

(** ** Basic statistics *)

Lemma nodup_nil_iff (l : list str) : nodup str_eq_dec l = [] <-> l = [].
Proof.
  split; [|now intros ->].
  destruct l as [|x l]; [reflexivity|]. intros H. exfalso.
  assert (Hin : In x (nodup str_eq_dec (x :: l))) by (apply nodup_In; now left).
  now rewrite H in Hin.
Qed.

Lemma nodup_length_le (l : list str) :
  (length (nodup str_eq_dec l) <= length l)%nat.
Proof.
  induction l as [|x l IH]; [reflexivity|]. cbn [nodup].
  destruct (in_dec str_eq_dec x l); cbn [length]; lia.
Qed.

Lemma length_zero {A} (l : list A) : Z.of_nat (length l) = 0%Z -> l = [].
Proof. destruct l; [reflexivity|]. cbn [length]. lia. Qed.

(** The tokens and the two counts, read off [text.split()]. *)
Lemma get_basic_stats_split text :
  let st := get_basic_stats text in
  tokens st = split text
  /\ total_words st = Z.of_nat (length (split text))
  /\ distinct_words st = Z.of_nat (length (nodup str_eq_dec (split text))).
Proof.
  cbv zeta. unfold get_basic_stats.
  destruct (strip text) as [|c r] eqn:E; cbn [is_empty].
  - now rewrite (split_blank text (strip_nil_blank text E)).
  - now rewrite <- E, split_strip.
Qed.

(** The tokens are those of [text.split()], whether or not the text is
    blank; the counts follow: between no and all words are distinct, and
    there are no words exactly when the text is whitespace only. *)
Theorem get_basic_stats_counts :
  forall text : str,
    let st := get_basic_stats text in
    tokens st = split text
    /\ total_words st = Z.of_nat (length (split text))
    /\ distinct_words st = Z.of_nat (length (nodup str_eq_dec (split text)))
    /\ (0 <= distinct_words st <= total_words st)%Z
    /\ (total_words st = 0%Z <-> forallb isspace text = true)
    /\ (distinct_words st = 0%Z <-> total_words st = 0%Z)
    /\ sentence_count st = Z.of_nat (length (sentences st))
    /\ (forallb isspace text = true -> sentences st = []).
Proof.
  intros text. cbv zeta. unfold get_basic_stats.
  destruct (strip text) as [|c r] eqn:E; cbn [is_empty].
  - pose proof (strip_nil_blank text E) as Hb.
    rewrite (split_blank text Hb).
    cbn [tokens total_words distinct_words sentences sentence_count
         length nodup].
    repeat split; auto; lia.
  - rewrite <- E, split_strip.
    cbn [tokens total_words distinct_words sentences sentence_count].
    unfold len_set.
    pose proof (nodup_length_le (split text)) as Hle.
    assert (Htot : Z.of_nat (length (split text)) = 0%Z
                   <-> forallb isspace text = true).
    { split.
      - intros H. apply split_nil_blank. now apply length_zero.
      - intros Hb. now rewrite (split_blank text Hb). }
    assert (Hdis : Z.of_nat (length (nodup str_eq_dec (split text))) = 0%Z
                   <-> Z.of_nat (length (split text)) = 0%Z).
    { split.
      - intros H. apply length_zero in H.
        apply (proj1 (nodup_nil_iff (split text))) in H. now rewrite H.
      - intros H. apply length_zero in H. now rewrite H. }
    split; [reflexivity|]. split; [reflexivity|]. split; [reflexivity|].
    split; [lia|]. split; [exact Htot|]. split; [exact Hdis|].
    split; [reflexivity|].
    intros Hb. rewrite (strip_blank text Hb) in E. discriminate E.
Qed.

(** Every sentence is non-empty, carries no whitespace at either end and
    holds none of the terminators [. ! ?]. *)
Theorem get_basic_stats_sentences :
  forall text : str,
    Forall (fun s => s <> [] /\ strip s = s
                     /\ forallb (fun c => negb (is_term c)) s = true)
           (sentences (get_basic_stats text)).
Proof.
  intros text. unfold get_basic_stats.
  destruct (is_empty (strip text)); [constructor|].
  cbn [sentences].
  pose proof (re_split_term_pieces (strip text)) as Hp.
  induction (re_split_term (strip text)) as [|p ps IH]; [constructor|].
  inversion Hp as [|? ? Hp1 Hp2]; subst. cbn [filter].
  destruct (strip p) as [|c r] eqn:E; cbn [is_empty negb map].
  - apply (IH Hp2).
  - constructor; [|apply (IH Hp2)]. rewrite E.
    split; [discriminate|]. split.
    + rewrite <- E. apply strip_idem.
    + rewrite <- E. now apply forallb_strip.
Qed.

(** ** The normaliser *)

Lemma single_spaced_no_double b s :
  single_spaced b s = true -> contains (lit "  ") s = false.
Proof.
  revert b. induction s as [|c s IH]; intros b; [reflexivity|].
  cbn [single_spaced contains]. intros H.
  assert (Hs : startswith (lit "  ") (c :: s) = false).
  { cbn [lit list_ascii_of_string startswith].
    destruct (ascii_dec " " c) as [<-|]; [|reflexivity].
    destruct s as [|d s]; [reflexivity|].
    destruct (ascii_dec " " d) as [<-|]; [|reflexivity].
    exfalso. cbn in H. now rewrite andb_false_r in H. }
  rewrite Hs. cbn [orb].
  destruct (isspace c).
  - destruct (ascii_dec c " "%char); [|discriminate].
    apply andb_true_iff in H as [_ H]. apply (IH true H).
  - apply (IH false H).
Qed.

Lemma single_spaced_only_spaces b s :
  single_spaced b s = true ->
  Forall (fun c => isspace c = true -> c = " "%char) s.
Proof.
  revert b. induction s as [|c s IH]; intros b; [constructor|].
  cbn [single_spaced]. destruct (isspace c) eqn:Hc.
  - destruct (ascii_dec c " "%char) as [->|]; [|discriminate].
    intros [_ H]%andb_true_iff. constructor; [reflexivity|apply (IH true H)].
  - intros H. constructor; [congruence|apply (IH false H)].
Qed.

(** The normalised text is lowercase, has no whitespace at either end, no
    whitespace character but the space and no two spaces in a row. *)
Theorem preprocess_text_normal_form :
  forall text : str,
    let o := preprocess_text text in
    lower o = o
    /\ strip o = o
    /\ Forall (fun c => isspace c = true -> c = " "%char) o
    /\ contains (lit "  ") o = false.
Proof.
  intros text. destruct (preprocess_text_normal text) as [Hss [Hst Hlo]].
  cbv zeta in *. repeat split; auto.
  - apply (single_spaced_only_spaces false _ Hss).
  - apply (single_spaced_no_double false _ Hss).
Qed.

(** Normalising keeps the words: the tokens of the normalised text are the
    lowercased tokens of the raw text, so the word count of the pipeline is
    the word count of the raw transcript, and the normalised text is empty
    exactly when the transcript has no word. *)
Theorem preprocess_text_keeps_words :
  forall text : str,
    split (preprocess_text text) = map lower (split text)
    /\ total_words (get_basic_stats (preprocess_text text))
       = Z.of_nat (length (split text))
    /\ (preprocess_text text = [] <-> split text = []).
Proof.
  intros text.
  assert (H : split (preprocess_text text) = map lower (split text)).
  { unfold preprocess_text. destruct text as [|c text]; [reflexivity|].
    cbn [is_empty].
    rewrite split_lower, split_strip, split_re_sub_ws.
    now rewrite !split_replace_char by reflexivity. }
  split; [exact H|]. split.
  - destruct (get_basic_stats_split (preprocess_text text)) as [_ [-> _]].
    now rewrite H, length_map.
  - split.
    + intros E. rewrite E in H. cbn in H.
      destruct (split text); [reflexivity|discriminate H].
    + apply ScoringFacts.preprocess_text_blank.
Qed.

(** ** Counting fillers, for any list of fillers *)

Lemma filler_occurrences_nonneg text f : (0 <= filler_occurrences text f)%Z.
Proof.
  unfold filler_occurrences. cbv zeta.
  destruct (contains (lit " ") (strip (lower f))); lia.
Qed.

Lemma zsum_app l1 l2 : zsum (l1 ++ l2) = (zsum l1 + zsum l2)%Z.
Proof.
  unfold zsum. induction l1 as [|x l1 IH]; cbn [app fold_right]; [lia|].
  rewrite IH. lia.
Qed.

Lemma zsum_nonneg l : Forall (fun x => (0 <= x)%Z) l -> (0 <= zsum l)%Z.
Proof.
  unfold zsum. induction 1; cbn [fold_right]; lia.
Qed.

(** The count does not depend on the case of the text, nor on the case of
    the fillers or on blanks around them; it adds up over the list of
    fillers, is never negative, and is 0 for an empty text. *)
Theorem count_filler_words_invariance :
  forall (text : str) (fillers : list str),
    count_filler_words (lower text) fillers = count_filler_words text fillers
    /\ count_filler_words text (map lower fillers)
       = count_filler_words text fillers
    /\ count_filler_words text (map strip fillers)
       = count_filler_words text fillers
    /\ (forall more,
          count_filler_words text (fillers ++ more)
          = (count_filler_words text fillers
             + count_filler_words text more)%Z)
    /\ (0 <= count_filler_words text fillers)%Z
    /\ count_filler_words [] fillers = 0%Z.
Proof.
  intros text fillers. rewrite !count_filler_words_sum.
  split; [|split; [|split; [|split; [|split]]]].
  - f_equal. apply map_ext. intros f. unfold filler_occurrences.
    now rewrite lower_idem.
  - rewrite map_map. f_equal. apply map_ext. intros f.
    unfold filler_occurrences. now rewrite lower_idem.
  - rewrite map_map. f_equal. apply map_ext. intros f.
    unfold filler_occurrences.
    now rewrite <- strip_lower, strip_idem, strip_lower.
  - intros more. now rewrite !count_filler_words_sum, map_app, zsum_app.
  - apply zsum_nonneg, Forall_map, Forall_forall. intros f _.
    apply filler_occurrences_nonneg.
  - now rewrite <- (count_filler_words_sum [] fillers).
Qed.

(** ** Case *)

Lemma is_term_lower_char c : is_term (lower_char c) = is_term c.
Proof. all_chars c. Qed.

Lemma re_split_term_lower s :
  re_split_term (lower s) = map lower (re_split_term s).
Proof.
  induction s as [|c s IH]; [reflexivity|].
  change (lower (c :: s)) with (lower_char c :: lower s).
  cbn [re_split_term]. rewrite is_term_lower_char.
  destruct (is_term c).
  - destruct s as [|d s]; [reflexivity|].
    change (lower (d :: s)) with (lower_char d :: lower s) in *.
    cbv iota. rewrite is_term_lower_char.
    destruct (is_term d); now rewrite IH.
  - rewrite IH. apply (cons_head_map lower_char).
Qed.

Lemma is_empty_lower s : is_empty (lower s) = is_empty s.
Proof. now destruct s. Qed.

Lemma sentences_of_pieces_lower ps :
  map strip (filter (fun s => negb (is_empty (strip s))) (map lower ps))
  = map lower
      (map strip (filter (fun s => negb (is_empty (strip s))) ps)).
Proof.
  induction ps as [|p ps IH]; [reflexivity|].
  cbn [map filter]. rewrite strip_lower, is_empty_lower.
  destruct (is_empty (strip p)); cbn [negb map]; [exact IH|].
  now rewrite strip_lower, IH.
Qed.

(** The statistics of the lowercased text are the lowercased statistics. *)
Lemma get_basic_stats_lower text :
  tokens (get_basic_stats (lower text))
  = map lower (tokens (get_basic_stats text))
  /\ sentences (get_basic_stats (lower text))
     = map lower (sentences (get_basic_stats text))
  /\ total_words (get_basic_stats (lower text))
     = total_words (get_basic_stats text).
Proof.
  unfold get_basic_stats. rewrite strip_lower, is_empty_lower.
  destruct (is_empty (strip text)); [now repeat split|].
  cbn [tokens sentences total_words].
  rewrite split_lower, re_split_term_lower, sentences_of_pieces_lower.
  now rewrite length_map.
Qed.

Lemma sentence_checks_lower s :
  _sentence_has_salutation (lower s) = _sentence_has_salutation s
  /\ _sentence_has_closing (lower s) = _sentence_has_closing s
  /\ _sentence_has_basic (lower s) = _sentence_has_basic s
  /\ _sentence_has_additional (lower s) = _sentence_has_additional s.
Proof.
  unfold _sentence_has_salutation, _sentence_has_closing,
    _sentence_has_basic, _sentence_has_additional.
  now rewrite lower_idem.
Qed.

Lemma detect_structure_tags_lower ss :
  detect_structure_tags (map lower ss) = detect_structure_tags ss.
Proof.
  unfold detect_structure_tags. rewrite map_map. apply map_ext. intros s.
  destruct (sentence_checks_lower s) as [-> [-> [-> ->]]]. reflexivity.
Qed.

Lemma detect_salutation_level_lower text :
  detect_salutation_level (lower text) = detect_salutation_level text.
Proof.
  destruct (get_basic_stats_lower text) as [_ [Hs _]].
  unfold detect_salutation_level. rewrite is_empty_lower, Hs.
  destruct (is_empty text); [reflexivity|].
  destruct (sentences (get_basic_stats text)) as [|first X];
    [reflexivity|].
  cbn [map is_empty nth_error bind]. now rewrite lower_idem.
Qed.

Lemma detect_keywords_lower text :
  detect_keywords (lower text) = detect_keywords text.
Proof. unfold detect_keywords. now rewrite lower_idem. Qed.

(** The detectors do not look at the case of the text: the salutation
    level, the keyword dictionary and the structure tags of the lowercased
    text are those of the text. *)
Theorem detectors_ignore_case :
  forall text : str,
    detect_salutation_level (lower text) = detect_salutation_level text
    /\ detect_keywords (lower text) = detect_keywords text
    /\ detect_structure_tags (sentences (get_basic_stats (lower text)))
       = detect_structure_tags (sentences (get_basic_stats text)).
Proof.
  intros text. destruct (get_basic_stats_lower text) as [_ [Hs _]].
  split; [|split].
  - apply detect_salutation_level_lower.
  - apply detect_keywords_lower.
  - rewrite Hs. apply detect_structure_tags_lower.
Qed.

(** ** Salutation level and salutation tag *)

(** If every phrase of [l1] holds a phrase of [l2], a text that mentions
    [l1] mentions [l2]. *)
Lemma any_in_covered l1 l2 s :
  forallb (fun p => existsb (fun q => contains q p) l2) l1 = true ->
  any_in l1 s = true -> any_in l2 s = true.
Proof.
  unfold any_in, any. rewrite forallb_forall, !existsb_exists.
  intros Hcov [p [Hin Hp]]. specialize (Hcov p Hin).
  apply existsb_exists in Hcov as [q [Hq Hqp]].
  exists q. split; [exact Hq|]. now apply (contains_trans q p s).
Qed.

Lemma any_in_app l1 l2 s : any_in (l1 ++ l2) s = any_in l1 s || any_in l2 s.
Proof. apply existsb_app. Qed.

(** The salutation score and the SALUTATION tag of the first sentence
    agree, but for one case: a first sentence tagged SALUTATION has a
    positive level, and a level of 2 or 4 means that the first sentence is
    tagged SALUTATION.  (A level of 5 reached through "i am excited to
    introduce" alone does not.) *)
Theorem salutation_level_and_tag :
  forall (text first : str) (X : list str),
    sentences (get_basic_stats text) = first :: X ->
    exists level,
      detect_salutation_level text = Some level
      /\ (_sentence_has_salutation first = true ->
          level = 2%Z \/ level = 4%Z \/ level = 5%Z)
      /\ (level = 2%Z \/ level = 4%Z ->
          _sentence_has_salutation first = true
          /\ hd_error (detect_structure_tags (first :: X))
             = Some "SALUTATION"%string).
Proof.
  intros text first X Hs.
  rewrite (detect_salutation_level_first text first X Hs).
  match goal with
  | |- exists l, Some ?v = Some l /\ _ => exists v; split; [reflexivity|]
  end.
  assert (Hb :
    (_sentence_has_salutation first = true ->
     any_in enthusiastic_phrases (lower first) = true
     \/ any_in formal_greetings (lower first) = true
     \/ any_in simple_greetings (lower first) = true)
    /\ (any_in formal_greetings (lower first) = true
        \/ any_in simple_greetings (lower first) = true ->
        _sentence_has_salutation first = true)).
  { unfold _sentence_has_salutation.
    set (f := lower first).
    change (map lit ["hello"; "hi"; "hey"]%string) with simple_greetings.
    set (times := map lit ["good morning"; "good afternoon";
                           "good evening"]%string).
    set (keen := map lit ["excited to introduce myself";
                          "thrilled to introduce myself";
                          "excited to be here";
                          "thrilled to be here"]%string).
    pose proof (any_in_covered times formal_greetings f eq_refl) as H1.
    pose proof (any_in_covered keen enthusiastic_phrases f eq_refl) as H2.
    pose proof (any_in_covered formal_greetings (times ++ simple_greetings) f
                  eq_refl) as H3.
    rewrite any_in_app in H3.
    destruct (any_in enthusiastic_phrases f), (any_in formal_greetings f),
             (any_in simple_greetings f), (any_in times f), (any_in keen f);
      cbn [orb] in *;
      try (specialize (H1 eq_refl)); try (specialize (H2 eq_refl));
      try (specialize (H3 eq_refl));
      try discriminate; split; intros; auto;
      repeat match goal with H : _ \/ _ |- _ => destruct H end;
      try discriminate; auto. }
  destruct Hb as [Hb1 Hb2].
  assert (Htag : _sentence_has_salutation first = true ->
            hd_error (detect_structure_tags (first :: X))
            = Some "SALUTATION"%string).
  { intros E. unfold detect_structure_tags. cbn [map hd_error].
    now rewrite E. }
  destruct (any_in enthusiastic_phrases (lower first)),
           (any_in formal_greetings (lower first)),
           (any_in simple_greetings (lower first));
    split; intros H; auto;
    try (destruct H as [H|H]; discriminate H);
    try (split; [|apply Htag]; apply Hb2; auto);
    try (destruct (Hb1 H) as [?|[?|?]]; discriminate).
Qed.

Lemma salutation_level_and_tag_witness :
  exists level,
    detect_salutation_level (lit "Hello there. I am Ann.") = Some level
    /\ (level = 2%Z \/ level = 4%Z ->
        hd_error (detect_structure_tags [lit "Hello there"; lit "I am Ann"])
        = Some "SALUTATION"%string).
Proof.
  destruct (salutation_level_and_tag (lit "Hello there. I am Ann.")
              (lit "Hello there") [lit "I am Ann"] eq_refl)
    as [level [Hl [_ H]]].
  exists level. split; [exact Hl|]. intros Hlv. apply (H Hlv).
Defined.

(** ** Greetings inside words *)

(** The greetings are looked for as substrings, so a word that merely
    holds "hi" ("this", "thing", "achieved") counts as one: a sentence whose
    lowercased form holds "hello", "hi" or "hey" anywhere is tagged
    SALUTATION whatever else it says, and as a first sentence it has a
    salutation level of at least 2.  Five phrases of the ADDITIONAL kind hold
    "hi", so a sentence that mentions one of them is tagged SALUTATION. *)
Theorem greeting_inside_a_word :
  (forall s : str,
     any_in simple_greetings (lower s) = true ->
     detect_structure_tags [s] = ["SALUTATION"%string])
  /\ (forall (text first : str) (X : list str),
        sentences (get_basic_stats text) = first :: X ->
        any_in simple_greetings (lower first) = true ->
        detect_salutation_level text = Some 2%Z
        \/ detect_salutation_level text = Some 4%Z
        \/ detect_salutation_level text = Some 5%Z)
  /\ (forall s : str,
        any_in (map lit ["i achieved"; "i have achieved";
                         "something unique about me"; "one thing about me";
                         "an interesting thing about me"; "this";
                         "children"; "which"]%string) (lower s) = true ->
        detect_structure_tags [s] = ["SALUTATION"%string]).
Proof.
  assert (Htag : forall s, any_in simple_greetings (lower s) = true ->
                   detect_structure_tags [s] = ["SALUTATION"%string]).
  { intros s H. unfold detect_structure_tags. cbn [map].
    unfold _sentence_has_salutation.
    change (map lit ["hello"; "hi"; "hey"]%string) with simple_greetings.
    rewrite H.
    now destruct (any_in (map lit ["good morning"; "good afternoon";
                                   "good evening"]%string) (lower s)). }
  split; [exact Htag|]. split.
  - intros text first X Hs H.
    rewrite (detect_salutation_level_first text first X Hs), H.
    destruct (any_in enthusiastic_phrases (lower first)),
             (any_in formal_greetings (lower first)); auto.
  - intros s H. apply Htag.
    match type of H with
    | any_in ?l _ = true =>
        apply (any_in_covered l simple_greetings (lower s) eq_refl H)
    end.
Qed.

Lemma greeting_inside_a_word_witness :
  detect_salutation_level (lit "This is my class. Thank you.") = Some 2%Z
  \/ detect_salutation_level (lit "This is my class. Thank you.") = Some 4%Z
  \/ detect_salutation_level (lit "This is my class. Thank you.") = Some 5%Z.
Proof.
  apply (proj1 (proj2 greeting_inside_a_word)
           (lit "This is my class. Thank you.") (lit "This is my class")
           [lit "Thank you"] eq_refl eq_refl).
Defined.

(** ** Sentences are parts of the text *)

Lemma re_split_term_head_prefix s h X :
  re_split_term s = h :: X -> exists b, s = h ++ b.
Proof.
  revert h X. induction s as [|c s IH]; intros h X.
  - cbn. intros H. injection H as <- _. now exists [].
  - destruct (is_term c) eqn:Hc.
    + destruct (re_split_term_starts_term c s Hc) as [Y HY].
      rewrite HY. intros H. injection H as <- _. now exists (c :: s).
    + cbn [re_split_term]. rewrite Hc.
      destruct (re_split_term s) as [|h' X'] eqn:E; cbn [cons_head].
      * intros H. injection H as <- _.
        destruct (re_split_term_cons s) as [? [? E']]. congruence.
      * intros H. injection H as <- _.
        destruct (IH h' X' eq_refl) as [b ->]. now exists b.
Qed.

Lemma re_split_term_substring s p :
  In p (re_split_term s) -> Substring p s.
Proof.
  revert p. induction s as [|c s IH]; intros p.
  - cbn. intros [<-|[]]. now exists [], [].
  - assert (Hstep : Substring p s -> Substring p (c :: s)).
    { intros [a [b ->]]. now exists (c :: a), b. }
    cbn [re_split_term]. destruct (is_term c) eqn:Hc.
    + destruct s as [|d s].
      * intros [<-|[<-|[]]]; now exists [], [c].
      * destruct (is_term d).
        -- intros H. apply Hstep, IH, H.
        -- intros [<-|H]; [now exists [], (c :: d :: s)|].
           apply Hstep, IH, H.
    + destruct (re_split_term s) as [|h X] eqn:E; cbn [cons_head].
      * intros [<-|[]].
        destruct (re_split_term_cons s) as [? [? E']]. congruence.
      * intros [<-|H].
        -- destruct (re_split_term_head_prefix s h X E) as [b ->].
           now exists [], b.
        -- apply Hstep, IH. now right.
Qed.

Lemma lstrip_substring s : Substring (lstrip s) s.
Proof.
  induction s as [|c s IH]; [now exists [], []|]. cbn [lstrip].
  destruct (isspace c);
    [|exists [], []; cbn [app]; now rewrite app_nil_r].
  destruct IH as [a [b E]]. exists (c :: a), b. cbn [app]. now rewrite <- E.
Qed.

Lemma rstrip_prefix s : exists b, s = rstrip s ++ b.
Proof.
  induction s as [|c s [b IH]]; [now exists []|]. cbn [rstrip].
  destruct (rstrip s) as [|x r] eqn:E.
  - destruct (isspace c); [now exists (c :: s)|].
    exists s. reflexivity.
  - exists b. change ((c :: x :: r) ++ b) with (c :: ((x :: r) ++ b)).
    now rewrite <- IH.
Qed.

Lemma strip_substring s : Substring (strip s) s.
Proof.
  unfold strip. apply (Substring_trans _ (lstrip s)); [|apply lstrip_substring].
  destruct (rstrip_prefix (lstrip s)) as [b E]. exists [], b. exact E.
Qed.

Lemma sentences_substring text s :
  In s (sentences (get_basic_stats text)) -> Substring s text.
Proof.
  unfold get_basic_stats. destruct (is_empty (strip text)); [intros []|].
  cbn [sentences]. rewrite in_map_iff. intros [p [<- Hp]].
  apply filter_In in Hp as [Hp _].
  apply (Substring_trans _ p); [apply strip_substring|].
  apply (Substring_trans _ (strip text)); [|apply strip_substring].
  now apply re_split_term_substring.
Qed.

(** ** Tags and keywords *)

Lemma any_in_sentence phrases text s :
  In s (sentences (get_basic_stats text)) ->
  any_in phrases (lower s) = true -> any_in phrases (lower text) = true.
Proof.
  intros Hin. rewrite !any_in_spec. unfold Mentions.
  rewrite !Exists_exists. intros [p [Hp Hsub]]. exists p.
  split; [exact Hp|].
  apply (Substring_trans p (lower s)); [exact Hsub|].
  apply Substring_lower, (sentences_substring text s Hin).
Qed.

Lemma contains_sentence p text s :
  In s (sentences (get_basic_stats text)) ->
  contains p (lower s) = true -> contains p (lower text) = true.
Proof.
  intros Hin. rewrite !contains_spec. intros Hsub.
  apply (Substring_trans p (lower s)); [exact Hsub|].
  apply Substring_lower, (sentences_substring text s Hin).
Qed.

(** The structure tags and the keyword dictionary of one text agree: a
    sentence is tagged BASIC only if the text has the name, age, school or
    location concept, and ADDITIONAL only if it has the family, hobbies,
    ambition, fun-fact or strengths concept. *)
Theorem tags_imply_keywords :
  forall text : str,
    let tags := detect_structure_tags (sentences (get_basic_stats text)) in
    let has k := dict_get String.eqb (detect_keywords text) k false in
    (In "BASIC"%string tags ->
       has "has_name"%string = true \/ has "has_age"%string = true
       \/ has "has_school_class"%string = true
       \/ has "has_location"%string = true)
    /\ (In "ADDITIONAL"%string tags ->
          has "has_family"%string = true \/ has "has_hobbies"%string = true
          \/ has "has_ambition"%string = true
          \/ has "has_fun_fact"%string = true
          \/ has "has_strengths_or_achievements"%string = true).
Proof.
  intros text. cbv zeta.
  change (dict_get String.eqb (detect_keywords text) "has_name"%string false)
    with (any_in name_phrases (lower text)).
  change (dict_get String.eqb (detect_keywords text) "has_age"%string false)
    with (contains age_phrase (lower text)).
  change (dict_get String.eqb (detect_keywords text) "has_school_class"%string false)
    with (any_in school_phrases (lower text)).
  change (dict_get String.eqb (detect_keywords text) "has_location"%string false)
    with (any_in location_phrases (lower text)).
  change (dict_get String.eqb (detect_keywords text) "has_family"%string false)
    with (any_in family_phrases (lower text)).
  change (dict_get String.eqb (detect_keywords text) "has_hobbies"%string false)
    with (any_in hobby_phrases (lower text)).
  change (dict_get String.eqb (detect_keywords text) "has_ambition"%string false)
    with (any_in ambition_phrases (lower text)).
  change (dict_get String.eqb (detect_keywords text) "has_fun_fact"%string false)
    with (any_in fun_fact_phrases (lower text)).
  change (dict_get String.eqb (detect_keywords text)
            "has_strengths_or_achievements"%string false)
    with (any_in strength_phrases (lower text)).
  unfold detect_structure_tags. split.
  - rewrite in_map_iff. intros [s [Htag Hin]].
    destruct (_sentence_has_salutation s); [discriminate Htag|].
    destruct (_sentence_has_closing s); [discriminate Htag|].
    destruct (_sentence_has_basic s) eqn:B;
      [|destruct (_sentence_has_additional s); discriminate Htag].
    unfold _sentence_has_basic in B.
    destruct (any_in name_phrases (lower s)) eqn:E1;
      [left; apply (any_in_sentence _ text s Hin E1)|].
    destruct (contains age_phrase (lower s)) eqn:E2;
      [right; left; apply (contains_sentence _ text s Hin E2)|].
    destruct (any_in school_phrases (lower s)) eqn:E3;
      [right; right; left; apply (any_in_sentence _ text s Hin E3)|].
    match type of B with
    | (if any_in ?l _ then _ else _) = _ =>
        destruct (any_in l (lower s)) eqn:E4; [|discriminate B];
        pose proof (any_in_covered l location_phrases (lower s) eq_refl E4)
          as E5
    end.
    right; right; right. apply (any_in_sentence _ text s Hin E5).
  - rewrite in_map_iff. intros [s [Htag Hin]].
    destruct (_sentence_has_salutation s); [discriminate Htag|].
    destruct (_sentence_has_closing s); [discriminate Htag|].
    destruct (_sentence_has_basic s); [discriminate Htag|].
    destruct (_sentence_has_additional s) eqn:A; [|discriminate Htag].
    unfold _sentence_has_additional in A.
    destruct (any_in family_phrases (lower s)) eqn:E1;
      [left; apply (any_in_sentence _ text s Hin E1)|].
    destruct (any_in hobby_phrases (lower s)) eqn:E2;
      [right; left; apply (any_in_sentence _ text s Hin E2)|].
    destruct (any_in ambition_phrases (lower s)) eqn:E3;
      [right; right; left; apply (any_in_sentence _ text s Hin E3)|].
    destruct (any_in fun_fact_phrases (lower s)) eqn:E4;
      [right; right; right; left; apply (any_in_sentence _ text s Hin E4)|].
    destruct (any_in strength_phrases (lower s)) eqn:E5; [|discriminate A].
    do 4 right. apply (any_in_sentence _ text s Hin E5).
Qed.

End TextUtilsMore.

(* ================================================================== *)
(** * More properties of scoring.py                                    *)
(* ================================================================== *)
Module ScoringMore.
Import Py Spec SpecMore PyFacts PyMore TextUtils TextUtilsFacts TextUtilsMore.
Import Scoring ScoringFacts.

(** ** Vocabulary *)

Lemma score_vocabulary_ratio tw dw :
  tw <> 0%Z ->
  exists ttr,
    ttr == inject_Z dw / inject_Z tw
    /\ score_vocabulary tw dw
       = Some (if fle 0.9 ttr && fle ttr 1 then 10%Z
               else if fle 0.7 ttr && flt ttr 0.9 then 8%Z
               else if fle 0.5 ttr && flt ttr 0.7 then 6%Z
               else if fle 0.3 ttr && flt ttr 0.5 then 4%Z
               else 2%Z, ttr).
Proof.
  intros Htw. unfold score_vocabulary, compute_ttr.
  apply Z.eqb_neq in Htw. rewrite Htw. apply Z.eqb_neq in Htw.
  destruct (fdiv_some (of_int dw) (of_int tw)) as [q [-> Hq]];
    [now apply of_int_nonzero|].
  exists q. split; [exact Hq|reflexivity].
Qed.

(** With words, [score_vocabulary] does not raise and scores the ratio
    ttr = distinct_words / total_words by a table without gaps on [0, 1]:
    10 from 0.9, 8 from 0.7, 6 from 0.5, 4 from 0.3, else 2; a ratio above 1
    falls in the last branch and scores 2. *)
Theorem score_vocabulary_bands :
  forall tw dw : Z, tw <> 0%Z ->
    exists score ttr,
      score_vocabulary tw dw = Some (score, ttr)
      /\ ttr == inject_Z dw / inject_Z tw
      /\ (0.9 <= ttr <= 1 -> score = 10%Z)
      /\ (0.7 <= ttr < 0.9 -> score = 8%Z)
      /\ (0.5 <= ttr < 0.7 -> score = 6%Z)
      /\ (0.3 <= ttr < 0.5 -> score = 4%Z)
      /\ (ttr < 0.3 \/ 1 < ttr -> score = 2%Z).
Proof.
  intros tw dw Htw.
  destruct (score_vocabulary_ratio tw dw Htw) as [q [Hq ->]].
  eexists _, q. split; [reflexivity|]. split; [exact Hq|].
  clear. band_cases; repeat split; intros; try reflexivity;
    exfalso; lra.
Qed.

Lemma score_vocabulary_bands_witness :
  exists score ttr,
    score_vocabulary 10 9 = Some (score, ttr) /\ score = 10%Z.
Proof.
  destruct (score_vocabulary_bands 10 9) as [score [ttr [Hs [Ht [H10 _]]]]];
    [discriminate|].
  exists score, ttr. split; [exact Hs|]. apply H10. rewrite Ht.
  split; discriminate.
Defined.

Lemma inject_Z_div_bounds (a b : Z) :
  (0 < a <= b)%Z -> 0 < inject_Z a / inject_Z b <= 1.
Proof.
  intros [Ha Hab].
  assert (Hb : 0 < inject_Z b).
  { change 0 with (inject_Z 0). rewrite <- Zlt_Qlt. lia. }
  assert (Ha' : 0 < inject_Z a).
  { change 0 with (inject_Z 0). rewrite <- Zlt_Qlt. lia. }
  assert (Hab' : inject_Z a <= inject_Z b) by (rewrite <- Zle_Qle; lia).
  split.
  - apply Qlt_shift_div_l; [exact Hb|]. lra.
  - apply Qle_shift_div_r; [exact Hb|]. lra.
Qed.

(** On the statistics of a text that has words, the ratio is above 0 and
    at most 1, so the score is 2 only below 0.3; and when no word is
    repeated the ratio is 1 and the score 10.  Without words the ratio and
    the score are 0. *)
Theorem score_vocabulary_of_stats :
  forall text : str,
    let st := get_basic_stats text in
    exists score ttr,
      score_vocabulary (total_words st) (distinct_words st)
      = Some (score, ttr)
      /\ (total_words st = 0%Z -> score = 0%Z /\ ttr = 0)
      /\ (total_words st <> 0%Z ->
          0 < ttr <= 1
          /\ (score = 2%Z -> ttr < 0.3)
          /\ (NoDup (tokens st) -> ttr == 1 /\ score = 10%Z)).
Proof.
  intros text. cbv zeta.
  destruct (get_basic_stats_split text) as [Htok [Htw Hdw]]. cbv zeta in *.
  set (st := get_basic_stats text) in *.
  destruct (Z.eq_dec (total_words st) 0) as [E|E].
  - rewrite E. exists 0%Z, 0. split; [reflexivity|]. split; [auto|congruence].
  - destruct (score_vocabulary_ratio (total_words st) (distinct_words st) E)
      as [ttr [Ht Hs]].
    eexists _, ttr. split; [exact Hs|]. split; [congruence|]. intros _.
    assert (Hpos : (0 < distinct_words st <= total_words st)%Z).
    { rewrite Hdw, Htw in *. pose proof (nodup_length_le (split text)).
      split; [|lia].
      destruct (nodup str_eq_dec (split text)) as [|x l] eqn:N;
        [|cbn [length]; lia].
      apply (proj1 (nodup_nil_iff (split text))) in N. rewrite N in E.
      now elim E. }
    pose proof (inject_Z_div_bounds _ _ Hpos) as Hb. rewrite <- Ht in Hb.
    split; [exact Hb|]. split.
    + clear -Hb. band_cases; intros; try discriminate; lra.
    + intros Hnd.
      assert (Heq : distinct_words st = total_words st).
      { rewrite Hdw, Htw. rewrite Htok in Hnd.
        now rewrite (nodup_fixed_point str_eq_dec Hnd). }
      assert (H1 : ttr == 1).
      { rewrite Ht, Heq. field. intros H0.
        apply (of_int_nonzero (total_words st) E H0). }
      split; [exact H1|]. clear -H1.
      band_cases; try reflexivity; exfalso; lra.
Qed.

(** ** Grammar *)

Lemma zmax_pos tw : (0 < tw)%Z -> zmax tw 1 = tw.
Proof. intros H. unfold zmax. destruct (tw <? 1)%Z eqn:E; [lia|reflexivity]. Qed.

(** The score of the grammar heuristic as a table of the capped error
    density [x], which is the lesser of errors / words * 100 and 100. *)
Lemma score_grammar_table text tw :
  (0 < tw)%Z ->
  exists score x,
    score_grammar text tw = Some (score, x)
    /\ 0 <= x <= 100
    /\ x <= inject_Z (errors_est text) / inject_Z tw * 100
    /\ (x == 100 \/ x == inject_Z (errors_est text) / inject_Z tw * 100)
    /\ (x < 4 -> score = 10%Z)
    /\ (4 <= x <= 8 -> score = 8%Z)
    /\ (8 < x <= 12 -> score = 6%Z)
    /\ (12 < x <= 16 -> score = 4%Z)
    /\ (16 < x -> score = 2%Z).
Proof.
  intros Htw. unfold score_grammar.
  assert (Hz : (tw =? 0)%Z = false) by (apply Z.eqb_neq; lia).
  rewrite Hz, (zmax_pos tw Htw). fold (errors_est text).
  destruct (fdiv_some (of_int (errors_est text)) (of_int tw)) as [d [-> Hd]];
    [apply of_int_nonzero; lia|].
  cbn [bind].
  set (x := fmin (fmul d 100) 100).
  destruct (fdiv_some x 20) as [r [-> Hr]]; [discriminate|].
  cbn [bind]. eexists. exists x. split; [reflexivity|].
  assert (He : 0 <= inject_Z (errors_est text)).
  { change 0 with (inject_Z 0). rewrite <- Zle_Qle. unfold errors_est. lia. }
  assert (Ht : 0 < inject_Z tw).
  { change 0 with (inject_Z 0). rewrite <- Zlt_Qlt. exact Htw. }
  unfold of_int in Hd.
  assert (Hd0 : 0 <= d).
  { rewrite Hd. apply Qle_shift_div_l; [exact Ht|]. lra. }
  assert (Hx : 0 <= x <= 100 /\ x <= d * 100 /\ (x == 100 \/ x == d * 100)).
  { subst x. unfold fmin.
    destruct (flt 100 (fmul d 100)) eqn:E;
      [apply flt_spec in E | apply flt_false in E];
      rewrite fmul_eq in E.
    - repeat split; try lra; try (left; reflexivity).
    - rewrite fmul_eq. repeat split; try lra; try (right; reflexivity). }
  destruct Hx as [Hx1 [Hx2 Hx3]]. rewrite <- Hd.
  split; [exact Hx1|]. split; [exact Hx2|]. split; [exact Hx3|].
  assert (Hg : fsub 1 (fmin r 1) == 1 - r \/ (1 <= r /\ fsub 1 (fmin r 1) == 0)).
  { unfold fmin. destruct (flt 1 r) eqn:E;
      [apply flt_spec in E | apply flt_false in E]; rewrite fsub_eq.
    - right. split; lra.
    - left. reflexivity. }
  generalize dependent (fsub 1 (fmin r 1)). intros g Hg.
  assert (Hr' : 20 * r == x) by (rewrite Hr; field).
  clearbody x. clear -Hr' Hx1 Hg.
  band_cases; repeat split; intros; try reflexivity; exfalso;
    destruct Hg as [Hg|[Hg1 Hg2]]; lra.
Qed.



(** ** Keywords: the labels *)

Lemma keyword_loop_state kw pts cs sc pr mi :
  keyword_loop kw pts cs (sc, pr, mi)
  = ((sc + pts * Z.of_nat (length (filter (flagged kw) cs)))%Z,
     pr ++ map fst (filter (flagged kw) cs),
     mi ++ map fst (filter (fun lk => negb (flagged kw lk)) cs)).
Proof.
  unfold keyword_loop. revert sc pr mi.
  induction cs as [|[label key] cs IH]; intros sc pr mi.
  - cbn [fold_left filter map length]. rewrite !app_nil_r. f_equal. f_equal. lia.
  - cbn [fold_left filter].
    change (dict_get String.eqb kw key false) with (flagged kw (label, key)).
    destruct (flagged kw (label, key)); rewrite IH; cbn [negb map fst length].
    + rewrite <- app_assoc. cbn [app]. f_equal. f_equal. lia.
    + rewrite <- app_assoc. cbn [app]. reflexivity.
Qed.

Lemma filter_split_length {A} (f : A -> bool) l :
  (length (filter f l) + length (filter (fun x => negb (f x)) l)
   = length l)%nat.
Proof.
  induction l as [|x l IH]; [reflexivity|]. cbn [filter].
  destruct (f x); cbn [negb length]; lia.
Qed.

Lemma filter_split_perm {A} (f : A -> bool) l :
  Permutation (filter f l ++ filter (fun x => negb (f x)) l) l.
Proof.
  induction l as [|x l IH]; [constructor|]. cbn [filter].
  destruct (f x); cbn [negb].
  - cbn [app]. now constructor.
  - apply Permutation_sym, Permutation_cons_app, Permutation_sym, IH.
Qed.

Lemma concept_labels_nodup : NoDup (map fst concepts).
Proof.
  assert (E : nodup string_dec (map fst concepts) = map fst concepts)
    by (vm_compute; reflexivity).
  rewrite <- E. apply NoDup_nodup.
Qed.

(** The labels returned by [score_keywords]: the present ones are the
    concepts that [detect_keywords] reports, the missing ones the others,
    both in the order of the rubric; each of the ten labels is in exactly one
    of the two lists; the score is 0 exactly when nothing is present and 30
    exactly when nothing is missing. *)
Theorem score_keywords_labels :
  forall text : str,
    let kw := detect_keywords text in
    let score := fst (fst (score_keywords text)) in
    let present := snd (fst (score_keywords text)) in
    let missing := snd (score_keywords text) in
    present = map fst (filter (flagged kw) concepts)
    /\ missing = map fst (filter (fun lk => negb (flagged kw lk)) concepts)
    /\ Permutation (present ++ missing) (map fst concepts)
    /\ NoDup (present ++ missing)
    /\ (length present + length missing = 10)%nat
    /\ (score = 0%Z <-> present = [])
    /\ (score = 30%Z <-> missing = []).
Proof.
  intros text. cbv zeta. unfold score_keywords.
  rewrite !keyword_loop_state. cbn [fst snd app].
  set (kw := detect_keywords text).
  unfold concepts. rewrite !filter_app, !map_app.
  assert (Hperm : Permutation
            (map fst (filter (flagged kw) (must_haves ++ good_to_have))
             ++ map fst (filter (fun lk => negb (flagged kw lk))
                           (must_haves ++ good_to_have)))
            (map fst (must_haves ++ good_to_have))).
  { rewrite <- map_app. apply Permutation_map, filter_split_perm. }
  rewrite !filter_app, !map_app in Hperm.
  pose proof (filter_split_length (flagged kw) must_haves) as Hm.
  pose proof (filter_split_length (flagged kw) good_to_have) as Hg.
  cbn [must_haves good_to_have length] in Hm, Hg.
  split; [reflexivity|]. split; [reflexivity|]. split; [exact Hperm|].
  split.
  { apply (Permutation_NoDup (Permutation_sym Hperm)).
    rewrite <- map_app. apply concept_labels_nodup. }
  split.
  { rewrite !length_app, !length_map. lia. }
  split.
  - split.
    + intros H.
      assert (Hz : length (filter (flagged kw) must_haves) = 0%nat
                   /\ length (filter (flagged kw) good_to_have) = 0%nat) by lia.
      destruct Hz as [Hz1 Hz2].
      apply length_zero_iff_nil in Hz1, Hz2. now rewrite Hz1, Hz2.
    + intros H. apply app_eq_nil in H as [H1 H2].
      apply map_eq_nil in H1, H2. now rewrite H1, H2.
  - split.
    + intros H.
      assert (Hz : length (filter (fun lk => negb (flagged kw lk)) must_haves)
                   = 0%nat
                   /\ length (filter (fun lk => negb (flagged kw lk))
                                good_to_have) = 0%nat) by lia.
      destruct Hz as [Hz1 Hz2].
      apply length_zero_iff_nil in Hz1, Hz2. now rewrite Hz1, Hz2.
    + intros H. apply app_eq_nil in H as [H1 H2].
      apply map_eq_nil in H1, H2. rewrite H1 in Hm. rewrite H2 in Hg.
      cbn [length] in Hm, Hg. lia.
Qed.

Lemma score_keywords_lengths text :
  (length (snd (fst (score_keywords text)))
   + length (snd (score_keywords text)) = 10)%nat.
Proof.
  unfold score_keywords. rewrite !keyword_loop_state. cbn [fst snd app].
  rewrite !length_app, !length_map.
  pose proof (filter_split_length (flagged (detect_keywords text))
                must_haves) as Lm.
  pose proof (filter_split_length (flagged (detect_keywords text))
                good_to_have) as Lg.
  change (length must_haves) with 5%nat in Lm.
  change (length good_to_have) with 5%nat in Lg. lia.
Qed.

(** ** Keywords: longer texts *)

Lemma Substring_context a t b : Substring t (a ++ t ++ b).
Proof. now exists a, b. Qed.

Lemma any_in_mono phrases s s' :
  Substring s s' -> any_in phrases s = true -> any_in phrases s' = true.
Proof.
  intros Hs. rewrite !any_in_spec. unfold Mentions.
  rewrite !Exists_exists. intros [p [Hin Hp]]. exists p.
  split; [exact Hin|]. apply (Substring_trans p s s' Hp Hs).
Qed.

Lemma contains_mono p s s' :
  Substring s s' -> contains p s = true -> contains p s' = true.
Proof.
  intros Hs. rewrite !contains_spec. intros Hp.
  apply (Substring_trans p s s' Hp Hs).
Qed.

Lemma flagged_mono a t b lk :
  flagged (detect_keywords t) lk = true ->
  flagged (detect_keywords (a ++ t ++ b)) lk = true.
Proof.
  assert (Hs : Substring (lower t) (lower (a ++ t ++ b))).
  { apply Substring_lower, Substring_context. }
  unfold flagged, detect_keywords. cbv zeta. cbn [dict_get].
  repeat match goal with
  | |- context [String.eqb ?k (snd lk)] => destruct (String.eqb k (snd lk))
  end; try discriminate;
    first [apply (any_in_mono _ _ _ Hs) | apply (contains_mono _ _ _ Hs)].
Qed.

Lemma filter_mono_length {A} (f g : A -> bool) l :
  (forall x, f x = true -> g x = true) ->
  (length (filter f l) <= length (filter g l))%nat
  /\ incl (filter f l) (filter g l).
Proof.
  intros Hfg. split.
  - induction l as [|x l IH]; [reflexivity|]. cbn [filter].
    destruct (f x) eqn:E.
    + rewrite (Hfg x E). cbn [length]. lia.
    + destruct (g x); cbn [length]; lia.
  - intros x. rewrite !filter_In. intros [Hin Hf]. auto.
Qed.

(** Text around a transcript never costs a concept: every label present
    for a text is present for any text that contains it, and the keyword
    score does not go down. *)
Theorem score_keywords_monotone :
  forall a t b : str,
    (fst (fst (score_keywords t))
     <= fst (fst (score_keywords (a ++ t ++ b))))%Z
    /\ incl (snd (fst (score_keywords t)))
            (snd (fst (score_keywords (a ++ t ++ b))))
    /\ incl (snd (score_keywords (a ++ t ++ b))) (snd (score_keywords t)).
Proof.
  intros a t b. unfold score_keywords.
  rewrite !keyword_loop_state. cbn [fst snd app].
  pose proof (fun l => filter_mono_length
                (flagged (detect_keywords t))
                (flagged (detect_keywords (a ++ t ++ b))) l
                (flagged_mono a t b)) as Hpos.
  assert (Hneg : forall l,
            incl (filter (fun lk => negb (flagged (detect_keywords (a ++ t ++ b)) lk)) l)
                 (filter (fun lk => negb (flagged (detect_keywords t) lk)) l)).
  { intros l. apply filter_mono_length. intros lk H.
    apply negb_true_iff in H. apply negb_true_iff.
    destruct (flagged (detect_keywords t) lk) eqn:E; [|reflexivity].
    now rewrite (flagged_mono a t b lk E) in H. }
  split; [|split].
  - destruct (Hpos must_haves) as [H1 _].
    destruct (Hpos good_to_have) as [H2 _]. lia.
  - apply incl_app_app; apply incl_map, Hpos.
  - apply incl_app_app; apply incl_map, Hneg.
Qed.

(** ** Flow of tagged sentences *)

Lemma three_distinct_length {A} (a b c : A) (l : list A) :
  a <> b -> a <> c -> b <> c -> In a l -> In b l -> In c l ->
  (3 <= length l)%nat.
Proof.
  intros Hab Hac Hbc Ha Hb Hc.
  assert (Hnd : NoDup [a; b; c]).
  { repeat constructor; cbn [In]; intuition congruence. }
  apply (NoDup_incl_length Hnd).
  intros x [<-|[<-|[<-|[]]]]; assumption.
Qed.

(** With the tags that [detect_structure_tags] gives to the sentences
    themselves, there is one tag a sentence, each one of the five; the flow
    score is 5 exactly when SALUTATION, BASIC and CLOSING all occur (the
    guard on empty lists changes nothing here), and 5 needs at least three
    sentences. *)
Theorem score_flow_of_tagged_sentences :
  forall sentences : list str,
    let tags := detect_structure_tags sentences in
    length tags = length sentences
    /\ Forall (fun t => In t structure_tags) tags
    /\ (score_flow sentences tags = 5%Z <->
          In "SALUTATION"%string tags /\ In "BASIC"%string tags
          /\ In "CLOSING"%string tags)
    /\ (score_flow sentences tags = 5%Z -> (3 <= length sentences)%nat).
Proof.
  intros sentences. cbv zeta.
  assert (Hlen : length (detect_structure_tags sentences) = length sentences)
    by apply length_map.
  assert (Hiff : score_flow sentences (detect_structure_tags sentences) = 5%Z
                 <-> In "SALUTATION"%string (detect_structure_tags sentences)
                     /\ In "BASIC"%string (detect_structure_tags sentences)
                     /\ In "CLOSING"%string (detect_structure_tags sentences)).
  { rewrite <- !tag_in_spec. unfold score_flow.
    destruct sentences as [|s ss]; [cbn; intuition discriminate|].
    cbn [is_empty orb].
    set (tags := detect_structure_tags (s :: ss)).
    assert (Hne : is_empty tags = false) by reflexivity.
    rewrite Hne.
    destruct (tag_in "SALUTATION" tags), (tag_in "BASIC" tags),
             (tag_in "CLOSING" tags); cbn [andb]; intuition discriminate. }
  split; [exact Hlen|]. split; [|split; [exact Hiff|]].
  - unfold detect_structure_tags. apply Forall_map, Forall_forall.
    intros s _. unfold structure_tags.
    repeat match goal with |- context [if ?b then _ else _] =>
      destruct b end; cbn [In]; auto 6.
  - intros H. apply Hiff in H as [H1 [H2 H3]]. rewrite <- Hlen.
    apply (three_distinct_length "SALUTATION"%string "BASIC"%string
             "CLOSING"%string); auto; discriminate.
Qed.

Section ExternalTools.

Variable polarity_scores : str -> dict string float.
Variable embedding : Type.
Variable encode : str -> embedding.
Variable pytorch_cos_sim : embedding -> embedding -> float.

(** ** Engagement *)

(** The engagement score follows the positivity by a table without gaps:
    15 from 0.7, 12 from 0.5, 9 from 0.3, 6 from 0.1, else 3; a higher
    positivity never scores less; and when the analyser's dictionary has no
    "pos" entry the positivity is taken as 0.0 and the score is 3. *)
Theorem score_engagement_bands :
  (forall text : str,
     let pos := dict_get String.eqb (polarity_scores text) "pos"%string 0 in
     let score := fst (score_engagement polarity_scores text) in
     snd (score_engagement polarity_scores text) = pos
     /\ (0.7 <= pos -> score = 15%Z)
     /\ (0.5 <= pos < 0.7 -> score = 12%Z)
     /\ (0.3 <= pos < 0.5 -> score = 9%Z)
     /\ (0.1 <= pos < 0.3 -> score = 6%Z)
     /\ (pos < 0.1 -> score = 3%Z))
  /\ (forall text text' : str,
        snd (score_engagement polarity_scores text)
        <= snd (score_engagement polarity_scores text') ->
        (fst (score_engagement polarity_scores text)
         <= fst (score_engagement polarity_scores text'))%Z)
  /\ (forall text : str,
        dict_mem (polarity_scores text) "pos" = false ->
        score_engagement polarity_scores text = (3%Z, 0)).
Proof.
  split; [|split].
  - intros text. cbv zeta. unfold score_engagement. cbn [fst snd].
    generalize (dict_get String.eqb (polarity_scores text) "pos"%string 0).
    intros pos. split; [reflexivity|].
    band_cases; repeat split; intros; try reflexivity; exfalso; lra.
  - intros text text'. unfold score_engagement. cbn [fst snd].
    generalize (dict_get String.eqb (polarity_scores text) "pos"%string 0).
    generalize (dict_get String.eqb (polarity_scores text') "pos"%string 0).
    intros p' p Hle.
    band_cases; try lia; exfalso; lra.
  - intros text Hmem. unfold score_engagement.
    assert (H0 : dict_get String.eqb (polarity_scores text) "pos"%string 0 = 0).
    { unfold dict_mem in Hmem.
      induction (polarity_scores text) as [|[k v] d IH]; [reflexivity|].
      cbn [existsb fst] in Hmem. apply orb_false_iff in Hmem as [Hk Hd].
      cbn [dict_get]. rewrite Hk. apply (IH Hd). }
    rewrite H0. reflexivity.
Qed.

(** ** The pipeline, field by field *)

Let score := score_transcript polarity_scores embedding encode pytorch_cos_sim.
Let similarity := compute_semantic_similarity embedding encode pytorch_cos_sim.

(** What each field of a returned result is. *)
Lemma score_transcript_fields text duration_sec r :
  score text duration_sec = Some r ->
  let clean := preprocess_text text in
  let st := get_basic_stats clean in
  stats r = st
  /\ score_salutation clean = Some (salutation_score r)
  /\ score_keywords clean
     = (keyword_score r, present_keywords r, missing_keywords r)
  /\ tags r = detect_structure_tags (sentences st)
  /\ flow_score r = score_flow (sentences st) (tags r)
  /\ score_speech_rate (total_words st) duration_sec
     = Some (speech_score r, wpm r)
  /\ score_grammar text (total_words st)
     = Some (grammar_score r, errors_per_100 r)
  /\ score_vocabulary (total_words st) (distinct_words st)
     = Some (vocab_score r, ttr r)
  /\ score_clarity clean (total_words st)
     = Some (clarity_score r, filler_rate r, filler_count r)
  /\ score_engagement polarity_scores text = (engagement_score r, pos_prob r)
  /\ similarity clean "content" = Some (content_semantic r)
  /\ similarity clean "language" = Some (language_semantic r)
  /\ similarity clean "clarity" = Some (clarity_semantic r)
  /\ similarity clean "engagement" = Some (engagement_semantic r)
  /\ total_score r
     = (salutation_score r + keyword_score r + flow_score r + speech_score r
        + grammar_score r + vocab_score r + clarity_score r
        + engagement_score r)%Z.
Proof.
  unfold score, similarity, score_transcript. cbv zeta.
  set (clean := preprocess_text text).
  set (st := get_basic_stats clean).
  destruct (score_salutation clean) as [sal|]; [|discriminate].
  cbn [bind].
  destruct (score_keywords clean) as [[kws present] missing].
  destruct (score_speech_rate (total_words st) duration_sec) as [[sp w]|];
    [|discriminate].
  cbn [bind].
  destruct (score_grammar text (total_words st)) as [[gr e]|]; [|discriminate].
  cbn [bind].
  destruct (score_vocabulary (total_words st) (distinct_words st))
    as [[vo t]|]; [|discriminate].
  cbn [bind].
  destruct (score_clarity clean (total_words st)) as [[[cl fr] fc]|];
    [|discriminate].
  cbn [bind].
  destruct (score_engagement polarity_scores text) as [eng pos].
  destruct (compute_semantic_similarity embedding encode pytorch_cos_sim
              clean "content") as [s1|]; [|discriminate].
  destruct (compute_semantic_similarity embedding encode pytorch_cos_sim
              clean "language") as [s2|]; [|discriminate].
  destruct (compute_semantic_similarity embedding encode pytorch_cos_sim
              clean "clarity") as [s3|]; [|discriminate].
  destruct (compute_semantic_similarity embedding encode pytorch_cos_sim
              clean "engagement") as [s4|]; [|discriminate].
  cbn [bind]. intros H. injection H as <-.
  cbn [Scoring.stats tags total_score salutation_score keyword_score
       present_keywords missing_keywords flow_score speech_score wpm
       grammar_score errors_per_100 vocab_score ttr clarity_score filler_rate
       filler_count engagement_score pos_prob content_semantic
       language_semantic clarity_semantic engagement_semantic].
  repeat split; try reflexivity. now destruct st.
Qed.

(** ** Lower bounds with words *)

Lemma score_speech_rate_words tw d s w :
  tw <> 0%Z -> 0 < d -> score_speech_rate tw d = Some (s, w) ->
  (2 <= s <= 10)%Z.
Proof.
  intros Htw Hd. unfold score_speech_rate.
  apply Z.eqb_neq in Htw. rewrite Htw.
  assert (Hle : fle d 0 = false) by (now apply fle_false).
  rewrite Hle. cbn [orb].
  destruct (fdiv_some (fmul (of_int tw) 60) d) as [q [-> _]]; [lra|].
  cbn [bind]. intros H. injection H as <- _.
  repeat match goal with |- context [if ?b then _ else _] =>
    destruct b end; lia.
Qed.

Lemma score_grammar_words text tw s x :
  (0 < tw)%Z -> score_grammar text tw = Some (s, x) -> (2 <= s <= 10)%Z.
Proof.
  intros Htw H.
  destruct (score_grammar_table text tw Htw)
    as [s' [x' [Hs [Hx [_ [_ [T10 [T8 [T6 [T4 T2]]]]]]]]]].
  rewrite H in Hs. injection Hs as <- <-.
  destruct (Qlt_le_dec x 4); [rewrite T10 by lra; lia|].
  destruct (Qlt_le_dec 8 x); [|rewrite T8 by lra; lia].
  destruct (Qlt_le_dec 12 x); [|rewrite T6 by lra; lia].
  destruct (Qlt_le_dec 16 x); [rewrite T2 by lra; lia|rewrite T4 by lra; lia].
Qed.

Lemma score_vocabulary_words tw dw s t :
  tw <> 0%Z -> score_vocabulary tw dw = Some (s, t) -> (2 <= s <= 10)%Z.
Proof.
  intros Htw. unfold score_vocabulary, compute_ttr.
  apply Z.eqb_neq in Htw. rewrite Htw. apply Z.eqb_neq in Htw.
  destruct (fdiv_some (of_int dw) (of_int tw)) as [q [-> _]];
    [now apply of_int_nonzero|].
  cbn [bind]. intros H. injection H as <- _.
  repeat match goal with |- context [if ?b then _ else _] =>
    destruct b end; lia.
Qed.

Lemma score_clarity_words text tw s fr fc :
  tw <> 0%Z -> score_clarity text tw = Some (s, fr, fc) -> (3 <= s <= 15)%Z.
Proof.
  intros Htw. unfold score_clarity.
  apply Z.eqb_neq in Htw. rewrite Htw. apply Z.eqb_neq in Htw.
  destruct (fdiv_some (of_int (count_filler_words text fillers)) (of_int tw))
    as [q [-> _]]; [now apply of_int_nonzero|].
  cbn [bind]. intros H. injection H as <- _ _.
  destruct (clarity_band_range (fmul q 100)) as [E|[E|[E|[E|E]]]];
    rewrite E; lia.
Qed.

Lemma pipeline_word_count text :
  total_words (get_basic_stats (preprocess_text text))
  = Z.of_nat (length (split text)).
Proof.
  unfold get_basic_stats.
  assert (Hsplit : split (preprocess_text text) = map lower (split text)).
  { unfold preprocess_text. destruct text as [|c text]; [reflexivity|].
    cbn [is_empty]. rewrite split_lower, split_strip, split_re_sub_ws.
    now rewrite !split_replace_char by reflexivity. }
  destruct (strip (preprocess_text text)) as [|c r] eqn:E; cbn [is_empty].
  - apply strip_nil_blank, split_blank in E. rewrite Hsplit in E.
    destruct (split text); [reflexivity|discriminate E].
  - rewrite <- E, split_strip, Hsplit. cbn [total_words].
    now rewrite length_map.
Qed.

(** A transcript that has at least one word, spoken in a positive time,
    scores at least 2 for speech rate, grammar and vocabulary and at least 3
    for clarity and engagement: its total is at least 12. *)
Theorem total_score_with_words :
  forall (text : str) (duration_sec : float),
    split text <> [] -> 0 < duration_sec ->
    exists r,
      score text duration_sec = Some r
      /\ (2 <= speech_score r)%Z /\ (2 <= grammar_score r)%Z
      /\ (2 <= vocab_score r)%Z /\ (3 <= clarity_score r)%Z
      /\ (3 <= engagement_score r)%Z
      /\ (12 <= total_score r <= 100)%Z.
Proof.
  intros text d Hwords Hd.
  destruct (score_transcript_total polarity_scores embedding encode
              pytorch_cos_sim text d) as [r [Hr Hrange]].
  exists r. split; [exact Hr|].
  destruct (score_transcript_fields text d r Hr)
    as [_ [_ [_ [_ [_ [Hsp [Hgr [Hvo [Hcl _]]]]]]]]].
  cbv zeta in *. rewrite pipeline_word_count in *.
  assert (Hpos : (0 < Z.of_nat (length (split text)))%Z).
  { destruct (split text); [congruence|]. cbn [length]. lia. }
  assert (Hne : Z.of_nat (length (split text)) <> 0%Z) by lia.
  pose proof (score_speech_rate_words _ _ _ _ Hne Hd Hsp).
  pose proof (score_grammar_words _ _ _ _ Hpos Hgr).
  pose proof (score_vocabulary_words _ _ _ _ Hne Hvo).
  pose proof (score_clarity_words _ _ _ _ _ Hne Hcl).
  intuition lia.
Qed.

(** The fields of a result fit together: the statistics are those of the
    normalised text and count the words of the raw transcript; there is one
    tag a sentence; the ten labels are shared between present and missing;
    the four similarities are in [0, 1]; a flow score of 5 needs three
    sentences; and without words every raw metric is 0. *)
Theorem score_transcript_result :
  forall (text : str) (duration_sec : float) (r : Result),
    score text duration_sec = Some r ->
    Scoring.stats r = get_basic_stats (preprocess_text text)
    /\ total_words (Scoring.stats r) = Z.of_nat (length (split text))
    /\ Z.of_nat (length (tags r)) = sentence_count (Scoring.stats r)
    /\ (length (present_keywords r) + length (missing_keywords r) = 10)%nat
    /\ (0 <= content_semantic r <= 1 /\ 0 <= language_semantic r <= 1
        /\ 0 <= clarity_semantic r <= 1 /\ 0 <= engagement_semantic r <= 1)
    /\ (flow_score r = 5%Z -> (3 <= sentence_count (Scoring.stats r))%Z)
    /\ (total_words (Scoring.stats r) = 0%Z ->
        wpm r = 0 /\ errors_per_100 r = 0 /\ ttr r = 0
        /\ filler_rate r = 0 /\ filler_count r = 0%Z)
    /\ (0 <= filler_count r)%Z.
Proof.
  intros text d r Hr.
  destruct (score_transcript_fields text d r Hr)
    as [Hst [_ [Hkw [Htags [Hflow [Hsp [Hgr [Hvo [Hcl [_
        [H1 [H2 [H3 [H4 _]]]]]]]]]]]]]].
  cbv zeta in *.
  set (clean := preprocess_text text) in *.
  set (st := get_basic_stats clean) in *.
  rewrite Hst.
  assert (Hsc : sentence_count st = Z.of_nat (length (sentences st))).
  { unfold st, get_basic_stats. now destruct (is_empty (strip clean)). }
  split; [reflexivity|]. split; [apply pipeline_word_count|].
  split; [rewrite Htags, Hsc; unfold detect_structure_tags;
          now rewrite length_map|].
  split.
  { pose proof (score_keywords_lengths clean) as L.
    rewrite Hkw in L. exact L. }
  split.
  { unfold similarity in *.
    rewrite (compute_semantic_similarity_eq embedding encode pytorch_cos_sim)
      in H1, H2, H3, H4.
    injection H1 as <-. injection H2 as <-. injection H3 as <-.
    injection H4 as <-. cbn [dict_lookup String.eqb Ascii.eqb Bool.eqb
                             CRITERION_DESCRIPTIONS].
    repeat split; apply clamp01_spec. }
  split.
  { intros H5. rewrite Hflow, Htags in H5. rewrite Hsc.
    apply Nat2Z.inj_le with (n := 3%nat).
    rewrite <- (length_map
                  (fun s => if _sentence_has_salutation s then "SALUTATION"
                            else if _sentence_has_closing s then "CLOSING"
                            else if _sentence_has_basic s then "BASIC"
                            else if _sentence_has_additional s then "ADDITIONAL"
                            else "OTHER")%string (sentences st)).
    fold (detect_structure_tags (sentences st)).
    unfold score_flow in H5.
    destruct (is_empty (sentences st) || is_empty (detect_structure_tags (sentences st)));
      [discriminate|].
    destruct (tag_in "SALUTATION" (detect_structure_tags (sentences st))) eqn:T1;
      [|discriminate].
    destruct (tag_in "BASIC" (detect_structure_tags (sentences st))) eqn:T2;
      [|discriminate].
    destruct (tag_in "CLOSING" (detect_structure_tags (sentences st))) eqn:T3;
      [|discriminate].
    apply tag_in_spec in T1, T2, T3.
    apply (three_distinct_length "SALUTATION"%string "BASIC"%string
             "CLOSING"%string); auto; discriminate. }
  split.
  { intros H0. rewrite H0 in *.
    cbn in Hsp, Hgr, Hvo, Hcl.
    injection Hsp as _ <-. injection Hgr as _ <-. injection Hvo as _ <-.
    injection Hcl as _ <- <-. repeat split; reflexivity. }
  { destruct (total_words st =? 0)%Z eqn:E.
    - unfold score_clarity in Hcl. rewrite E in Hcl. injection Hcl as _ _ <-. lia.
    - unfold score_clarity in Hcl. rewrite E in Hcl.
      destruct (fdiv (of_int (count_filler_words clean fillers))
                  (of_int (total_words st))); [|discriminate].
      cbn [bind] in Hcl. injection Hcl as _ _ <-.
      rewrite count_filler_words_sum.
      apply zsum_nonneg, Forall_map, Forall_forall. intros w _.
      apply filler_occurrences_nonneg. }
Qed.

End ExternalTools.

Lemma score_engagement_bands_witness :
  score_engagement (fun _ => [("neg"%string, 0.1)]) (lit "Hello") = (3%Z, 0).
Proof.
  apply (proj2 (proj2 (score_engagement_bands (fun _ => [("neg"%string, 0.1)])))).
  reflexivity.
Defined.

(** ** What the inputs can change *)

(** The embedding model changes nothing but the four similarities, and the
    duration nothing but the speech score, the wpm and, through the speech
    score, the total. *)
Theorem score_transcript_dependencies :
  forall (polarity_scores : str -> dict string float)
         (embedding embedding' : Type)
         (encode : str -> embedding) (encode' : str -> embedding')
         (pytorch_cos_sim : embedding -> embedding -> float)
         (pytorch_cos_sim' : embedding' -> embedding' -> float)
         (text : str) (duration_sec duration_sec' : float) (r r' : Result),
    score_transcript polarity_scores embedding encode pytorch_cos_sim
      text duration_sec = Some r ->
    score_transcript polarity_scores embedding' encode' pytorch_cos_sim'
      text duration_sec' = Some r' ->
    Scoring.stats r = Scoring.stats r' /\ tags r = tags r'
    /\ salutation_score r = salutation_score r'
    /\ keyword_score r = keyword_score r'
    /\ present_keywords r = present_keywords r'
    /\ missing_keywords r = missing_keywords r'
    /\ flow_score r = flow_score r'
    /\ grammar_score r = grammar_score r'
    /\ errors_per_100 r = errors_per_100 r'
    /\ vocab_score r = vocab_score r' /\ ttr r = ttr r'
    /\ clarity_score r = clarity_score r'
    /\ filler_rate r = filler_rate r' /\ filler_count r = filler_count r'
    /\ engagement_score r = engagement_score r' /\ pos_prob r = pos_prob r'
    /\ (total_score r - speech_score r = total_score r' - speech_score r')%Z
    /\ (duration_sec = duration_sec' ->
        speech_score r = speech_score r' /\ wpm r = wpm r'
        /\ total_score r = total_score r').
Proof.
  intros ps emb emb' enc enc' cos cos' text d d' r r' Hr Hr'.
  destruct (score_transcript_fields ps emb enc cos text d r Hr)
    as [Hst [Hsal [Hkw [Htags [Hflow [Hsp [Hgr [Hvo [Hcl [Heng
        [_ [_ [_ [_ Htot]]]]]]]]]]]]]].
  destruct (score_transcript_fields ps emb' enc' cos' text d' r' Hr')
    as [Hst' [Hsal' [Hkw' [Htags' [Hflow' [Hsp' [Hgr' [Hvo' [Hcl' [Heng'
        [_ [_ [_ [_ Htot']]]]]]]]]]]]]].
  cbv zeta in *.
  rewrite Hsal' in Hsal. rewrite Hkw' in Hkw. rewrite Hgr' in Hgr.
  rewrite Hvo' in Hvo. rewrite Hcl' in Hcl. rewrite Heng' in Heng.
  injection Hsal as Esal. injection Hkw as Ekw Epr Emi.
  injection Hgr as Egr Ee. injection Hvo as Evo Et.
  injection Hcl as Ecl Efr Efc. injection Heng as Eeng Epos.
  assert (Etags : tags r = tags r') by congruence.
  assert (Eflow : flow_score r = flow_score r') by congruence.
  repeat split; try congruence; try lia;
    intros ->; rewrite Hsp' in Hsp; injection Hsp as Esp _; lia.
Qed.

Lemma score_transcript_dependencies_witness :
  exists r r',
    score_transcript (fun _ => []) unit (fun _ => tt) (fun _ _ => 0.5)
      (lit "Hi all. I am Ann.") 60 = Some r
    /\ score_transcript (fun _ => []) bool (fun _ => true) (fun _ _ => 2)
         (lit "Hi all. I am Ann.") 2 = Some r'
    /\ (total_score r - speech_score r = total_score r' - speech_score r')%Z.
Proof.
  eexists. eexists. split; [vm_compute; reflexivity|].
  split; [vm_compute; reflexivity|].
  apply (score_transcript_dependencies (fun _ => []) unit bool (fun _ => tt)
           (fun _ => true) (fun _ _ => 0.5) (fun _ _ => 2)
           (lit "Hi all. I am Ann.") 60 2 _ _ eq_refl eq_refl).
Defined.

Lemma total_score_with_words_witness :
  exists r,
    score_transcript (fun _ => [("pos"%string, 0)]) unit (fun _ => tt)
      (fun _ _ => 0.5)
      (lit "um a1 um a1 um a1 um a1 um a1") 60 = Some r
    /\ (12 <= total_score r <= 100)%Z.
Proof.
  destruct (total_score_with_words (fun _ => [("pos"%string, 0)]) unit
              (fun _ => tt) (fun _ _ => 0.5)
              (lit "um a1 um a1 um a1 um a1 um a1") 60)
    as [r [Hr H]]; [discriminate | reflexivity |].
  exists r. split; [exact Hr|]. apply H.
Defined.

(** The bound 12 is reached. *)
Example total_score_with_words_tight :
  option_map total_score
    (score_transcript (fun _ => [("pos"%string, 0)]) unit (fun _ => tt)
       (fun _ _ => 0.5) (lit "um a1 um a1 um a1 um a1 um a1") 60)
  = Some 12%Z.
Proof. vm_compute. reflexivity. Qed.

Lemma score_transcript_result_witness :
  exists r,
    score_transcript (fun _ => []) unit (fun _ => tt) (fun _ _ => 0.5)
      (lit "Hi  all.\n I am Ann.") 60 = Some r
    /\ total_words (Scoring.stats r) = 5%Z.
Proof.
  eexists. split; [vm_compute; reflexivity|].
  apply (proj1 (proj2 (score_transcript_result (fun _ => []) unit
                         (fun _ => tt) (fun _ _ => 0.5)
                         (lit "Hi  all.\n I am Ann.") 60 _ eq_refl))).
Defined.

(** ** Case *)

Lemma isdigit_lower_char c : isdigit (lower_char c) = isdigit c.
Proof. all_chars c. Qed.

Lemma isalpha_lower_char c : isalpha (lower_char c) = isalpha c.
Proof. all_chars c. Qed.

Lemma space_lower_char c :
  (if ascii_dec " " (lower_char c) then true else false)
  = (if ascii_dec " " c then true else false).
Proof. all_chars c. Qed.

Lemma weird_token_lower tok : weird_token (lower tok) = weird_token tok.
Proof.
  unfold weird_token, any, lower.
  assert (H : forall f : ascii -> bool,
            (forall c, f (lower_char c) = f c) ->
            existsb f (map lower_char tok) = existsb f tok).
  { intros f Hf. induction tok as [|c tok IH]; [reflexivity|].
    cbn [map existsb]. now rewrite Hf, IH. }
  now rewrite (H isdigit isdigit_lower_char), (H isalpha isalpha_lower_char).
Qed.

Lemma weird_tokens_lower text :
  length (filter weird_token (split (lower text)))
  = length (filter weird_token (split text)).
Proof.
  rewrite split_lower. induction (split text) as [|t ts IH]; [reflexivity|].
  cbn [map filter]. rewrite weird_token_lower.
  destruct (weird_token t); cbn [length]; now rewrite IH.
Qed.

Lemma startswith_cons a p b t :
  startswith (a :: p) (b :: t)
  = if ascii_dec a b then startswith p t else false.
Proof. reflexivity. Qed.

Lemma startswith_double_space_lower t :
  startswith (lit "  ") (lower t) = startswith (lit "  ") t.
Proof.
  change (lit "  ") with [" "%char; " "%char].
  destruct t as [|c t]; [reflexivity|].
  change (lower (c :: t)) with (lower_char c :: lower t).
  rewrite !startswith_cons.
  pose proof (space_lower_char c) as Hc.
  destruct (ascii_dec " " (lower_char c)) as [e|n],
           (ascii_dec " " c) as [e'|n'];
    try discriminate Hc; [|reflexivity].
  destruct t as [|d t]; [reflexivity|].
  change (lower (d :: t)) with (lower_char d :: lower t).
  rewrite !startswith_cons.
  pose proof (space_lower_char d) as Hd.
  destruct (ascii_dec " " (lower_char d)) as [f|m],
           (ascii_dec " " d) as [f'|m'];
    try discriminate Hd; reflexivity.
Qed.

Lemma count_double_space_lower t :
  count (lit "  ") (lower t) = count (lit "  ") t.
Proof.
  change (count (lit "  ") (lower t)) with (count_from (lit "  ") 0 (lower t)).
  change (count (lit "  ") t) with (count_from (lit "  ") 0 t).
  generalize 0%nat as k. induction t as [|c t IH]; intros k; [reflexivity|].
  change (lower (c :: t)) with (lower_char c :: lower t).
  cbn [count_from]. destruct k as [|k]; [|apply IH].
  change (lower_char c :: lower t) with (lower (c :: t)).
  rewrite startswith_double_space_lower.
  destruct (startswith (lit "  ") (c :: t)); now rewrite IH.
Qed.

Lemma replace_char_lower old s :
  isspace old = true ->
  replace_char old " " (lower s) = lower (replace_char old " " s).
Proof.
  intros Hold. unfold replace_char, lower. rewrite !map_map.
  apply map_ext. intros c.
  destruct (ascii_dec c old) as [->|Hne].
  - rewrite (lower_char_space old Hold).
    destruct (ascii_dec old old); [reflexivity|congruence].
  - destruct (ascii_dec (lower_char c) old) as [E|]; [|reflexivity].
    exfalso. apply Hne.
    assert (Hsp : isspace c = true)
      by (rewrite <- isspace_lower_char, E; exact Hold).
    now rewrite <- (lower_char_space c Hsp).
Qed.

Lemma re_sub_ws_lower b s : re_sub_ws b (lower s) = lower (re_sub_ws b s).
Proof.
  revert b. induction s as [|c s IH]; intros b; [reflexivity|].
  change (lower (c :: s)) with (lower_char c :: lower s).
  cbn [re_sub_ws]. rewrite isspace_lower_char.
  destruct (isspace c); [destruct b|];
    rewrite IH; reflexivity.
Qed.

Lemma preprocess_text_lower text :
  preprocess_text (lower text) = preprocess_text text.
Proof.
  unfold preprocess_text. rewrite is_empty_lower.
  destruct (is_empty text); [reflexivity|].
  rewrite !replace_char_lower by reflexivity.
  now rewrite re_sub_ws_lower, strip_lower, lower_idem.
Qed.

Lemma scorers_grammar_lower text tw :
  score_grammar (lower text) tw = score_grammar text tw.
Proof.
  unfold score_grammar.
  now rewrite lower_idem, count_double_space_lower, weird_tokens_lower.
Qed.

(** The seven rule-based scorers do not look at the case of the text: the
    normalised text, hence the word counts behind speech rate and
    vocabulary, and the salutation, keyword, grammar and clarity results of
    the lowercased text are those of the text.  Only the sentiment analyser
    is given text whose case matters. *)
Theorem scorers_ignore_case :
  forall (text : str) (tw : Z),
    preprocess_text (lower text) = preprocess_text text
    /\ score_salutation (lower text) = score_salutation text
    /\ score_keywords (lower text) = score_keywords text
    /\ score_grammar (lower text) tw = score_grammar text tw
    /\ score_clarity (lower text) tw = score_clarity text tw.
Proof.
  intros text tw. split; [apply preprocess_text_lower|].
  split; [apply detect_salutation_level_lower|].
  split; [unfold score_keywords; now rewrite detect_keywords_lower|].
  split.
  - apply scorers_grammar_lower.
  - unfold score_clarity.
    assert (E : count_filler_words (lower text) fillers
                = count_filler_words text fillers).
    { rewrite !count_filler_words_sum. f_equal. apply map_ext. intros w.
      unfold filler_occurrences. now rewrite lower_idem. }
    now rewrite E.
Qed.

(** Hence a transcript and its lowercased form get the same results but
    for the engagement score, the positivity and, through them, the total. *)
Theorem score_transcript_case :
  forall (polarity_scores : str -> dict string float) (embedding : Type)
         (encode : str -> embedding)
         (pytorch_cos_sim : embedding -> embedding -> float)
         (text : str) (duration_sec : float) (r r' : Result),
    score_transcript polarity_scores embedding encode pytorch_cos_sim
      text duration_sec = Some r ->
    score_transcript polarity_scores embedding encode pytorch_cos_sim
      (lower text) duration_sec = Some r' ->
    Scoring.stats r = Scoring.stats r' /\ tags r = tags r'
    /\ salutation_score r = salutation_score r'
    /\ keyword_score r = keyword_score r'
    /\ flow_score r = flow_score r'
    /\ speech_score r = speech_score r' /\ wpm r = wpm r'
    /\ grammar_score r = grammar_score r'
    /\ vocab_score r = vocab_score r'
    /\ clarity_score r = clarity_score r'
    /\ (total_score r - engagement_score r
        = total_score r' - engagement_score r')%Z.
Proof.
  intros ps emb enc cos text d r r' Hr Hr'.
  destruct (score_transcript_fields ps emb enc cos text d r Hr)
    as [Hst [Hsal [Hkw [Htags [Hflow [Hsp [Hgr [Hvo [Hcl [_
        [_ [_ [_ [_ Htot]]]]]]]]]]]]]].
  destruct (score_transcript_fields ps emb enc cos (lower text) d r' Hr')
    as [Hst' [Hsal' [Hkw' [Htags' [Hflow' [Hsp' [Hgr' [Hvo' [Hcl' [_
        [_ [_ [_ [_ Htot']]]]]]]]]]]]]].
  cbv zeta in *. rewrite preprocess_text_lower in *.
  assert (Eg : score_grammar (lower text)
                 (total_words (get_basic_stats (preprocess_text text)))
               = score_grammar text
                   (total_words (get_basic_stats (preprocess_text text))))
    by apply scorers_grammar_lower.
  rewrite Eg in Hgr'.
  rewrite Hsal' in Hsal. rewrite Hkw' in Hkw. rewrite Hgr' in Hgr.
  rewrite Hvo' in Hvo. rewrite Hcl' in Hcl. rewrite Hsp' in Hsp.
  injection Hsal as Esal. injection Hkw as Ekw _ _.
  injection Hgr as Egr _. injection Hvo as Evo _.
  injection Hcl as Ecl _ _. injection Hsp as Esp Ew.
  assert (Etags : tags r = tags r') by congruence.
  assert (Eflow : flow_score r = flow_score r') by congruence.
  repeat split; try congruence; lia.
Qed.

Lemma score_transcript_case_witness :
  exists r r',
    score_transcript (fun _ => []) unit (fun _ => tt) (fun _ _ => 0.5)
      (lit "Hi ALL. I am Ann.") 60 = Some r
    /\ score_transcript (fun _ => []) unit (fun _ => tt) (fun _ _ => 0.5)
         (lower (lit "Hi ALL. I am Ann.")) 60 = Some r'
    /\ keyword_score r = keyword_score r'.
Proof.
  eexists. eexists. split; [vm_compute; reflexivity|].
  split; [vm_compute; reflexivity|].
  apply (score_transcript_case (fun _ => []) unit (fun _ => tt)
           (fun _ _ => 0.5) (lit "Hi ALL. I am Ann.") 60 _ _ eq_refl eq_refl).
Defined.

End ScoringMore.

(* ================================================================== *)
(** * Properties of app.py                                             *)
(* ================================================================== *)
Module AppFacts.
Import Py Spec SpecMore PyFacts PyMore TextUtils TextUtilsFacts TextUtilsMore.
Import Scoring ScoringFacts ScoringMore App.

(** ** The performance band *)

(** A higher score never gets a lower band; the bands start at 40, 60, 75
    and 90. *)
Theorem label_overall_monotone :
  forall a b : Z,
    (a <= b)%Z ->
    (band_rank (label_overall a) <= band_rank (label_overall b))%nat
    /\ (band_rank (label_overall a) = 0%nat <-> (a < 40)%Z)
    /\ (band_rank (label_overall a) = 4%nat <-> (90 <= a)%Z).
Proof.
  intros a b Hab. unfold label_overall.
  destruct (a >=? 90)%Z eqn:A1; destruct (a >=? 75)%Z eqn:A2;
  destruct (a >=? 60)%Z eqn:A3; destruct (a >=? 40)%Z eqn:A4;
  destruct (b >=? 90)%Z eqn:B1; destruct (b >=? 75)%Z eqn:B2;
  destruct (b >=? 60)%Z eqn:B3; destruct (b >=? 40)%Z eqn:B4;
  cbn [band_rank String.eqb Ascii.eqb Bool.eqb];
  rewrite ?Z.geb_leb, ?Z.leb_le, ?Z.leb_gt in *;
  repeat split; intros; try lia.
Qed.

Lemma label_overall_monotone_witness :
  (band_rank (label_overall 68) <= band_rank (label_overall 72))%nat.
Proof. apply (label_overall_monotone 68 72). lia. Defined.

(** ** The feedback summary *)









End AppFacts.
